(** * Doc_Collab: versioned document store, rooms and auto-save timers

    A shallow embedding of the collaboration back end:
    - [models/Document.js]: the [documents] and [document_versions] tables;
    - the two document route sets (one with owner/collaborator checks, one
      public), i.e. create, update and revert;
    - [server.js]: [saveDocumentToDB], the socket handlers for joining,
      leaving, editing, saving and disconnecting, and the auto-save timers.

    Sequelize calls are modelled by pure functions on a database value; a
    transaction that is rolled back returns the database it started from. *)

From Stdlib Require Import ZArith Lia.
From stdpp Require Import base gmap sets list strings option.

Open Scope string_scope.
Open Scope list_scope.
Open Scope nat_scope.

(** ** The store *)

(** A row of [documents]; the primary key [id] is the key of the table.
    [ownerId] is absent ([None]) for documents created through the public
    route set, which never writes it. [collaborators] is the list of ids
    obtained by [document.collaborators.map(c => c.id)]. *)
Record Document := mkDocument {
  title : string;
  content : string;
  currentVersion : nat;
  ownerId : option Z;
  collaborators : list Z
}.

(** A row of [document_versions]. *)
Record DocumentVersion := mkDocumentVersion {
  documentId : Z;
  ver_content : string;
  updatedById : Z
}.

(** [document_versions] is kept in creation order ([createdAt] ascending,
    ties by insertion id), so the newest row is the last one. [nextId] is the
    auto-increment counter of [documents]. *)
Record DB := mkDB {
  documents : gmap Z Document;
  document_versions : list DocumentVersion;
  nextId : Z
}.

Definition emptyDB : DB := mkDB ∅ [] 1.

(** *** Sequelize primitives *)

(** [Document.findByPk(id)] *)
Definition findByPk (db : DB) (id : Z) : option Document :=
  documents db !! id.

(** [DocumentVersion.findAll({ where: { documentId }, order: [['createdAt','ASC']] })] *)
Definition findAllVersions (db : DB) (id : Z) : list DocumentVersion :=
  filter (λ v, documentId v = id) (document_versions db).

(** [DocumentVersion.findOne({ where: { documentId }, order: [['createdAt','DESC']] })] *)
Definition findLastVersion (db : DB) (id : Z) : option DocumentVersion :=
  list.last (findAllVersions db id).

(** [DocumentVersion.count({ where: { documentId } })] *)
Definition countVersions (db : DB) (id : Z) : nat :=
  length (findAllVersions db id).

(** [DocumentVersion.create(v)] *)
Definition createVersion (db : DB) (v : DocumentVersion) : DB :=
  mkDB (documents db) (document_versions db ++ [v]) (nextId db).

(** [document.save()] for the instance loaded under key [id] *)
Definition saveDocument (db : DB) (id : Z) (d : Document) : DB :=
  mkDB (<[id := d]> (documents db)) (document_versions db) (nextId db).

(** [Document.create(d)]: the new row takes the next id. *)
Definition insertDocument (db : DB) (d : Document) : DB * Z :=
  (mkDB (<[nextId db := d]> (documents db)) (document_versions db)
        (nextId db + 1)%Z,
   nextId db).

(** The contents of a document's ledger, oldest first. *)
Definition ledger (db : DB) (id : Z) : list string :=
  ver_content <$> findAllVersions db id.

(** *** Access check *)

(** [document.ownerId === parseInt(userId) || collaboratorIds.includes(parseInt(userId))];
    user ids are integers, on which [parseInt] is the identity. *)
Definition hasAccess (document : Document) (userId : Z) : bool :=
  bool_decide (ownerId document = Some userId)
  || bool_decide (userId ∈ collaborators document).

(** The two route sets: [Guarded] checks owner/collaborator on every route,
    [Open] is the public one (everyone can edit and revert). *)
Inductive RouteSet := Guarded | Open.

Definition denied (rs : RouteSet) (document : Document) (userId : Z) : bool :=
  match rs with
  | Guarded => negb (hasAccess document userId)
  | Open => false
  end.

(** *** Responses *)

Inductive Body :=
| BDoc (d : option Document)
| BMessage (m : string).

Inductive Response := Json (status : nat) (body : Body).

(** The result of [parseInt] on a route parameter. *)
Inductive JsNumber := JsInt (z : Z) | JsNaN.

(** [index < 0 || index >= n]; every comparison with NaN is false. *)
Definition indexOutOfRange (index : JsNumber) (n : nat) : bool :=
  match index with
  | JsInt z => bool_decide (z < 0)%Z || bool_decide (Z.of_nat n ≤ z)%Z
  | JsNaN => false
  end.

(** [versions[index]]: [undefined] ([None]) outside the array and at NaN. *)
Definition jsIndex {A} (l : list A) (index : JsNumber) : option A :=
  match index with
  | JsInt z => if bool_decide (0 ≤ z)%Z then l !! Z.to_nat z else None
  | JsNaN => None
  end.

(** [!lastVersion || lastVersion.content !== document.content] *)
Definition shouldSnapshot (lastVersion : option DocumentVersion)
    (document : Document) : bool :=
  match lastVersion with
  | None => true
  | Some v => negb (bool_decide (ver_content v = content document))
  end.

(** *** Routes *)

(** [router.post('/')]. [title] and [content] are the optional fields of the
    request body; [!title] also rejects the empty string and
    [content || ''] maps a missing content to the empty string. *)
Definition createRoute (rs : RouteSet) (db : DB) (userId : Z)
    (reqTitle reqContent : option string) : DB * Response :=
  match reqTitle with
  | None | Some "" => (db, Json 400 (BMessage "Title is required"))
  | Some t =>
    let c := default "" reqContent in
    let '(db1, id) :=
      insertDocument db
        {| title := t; content := c; currentVersion := 0;
           ownerId := match rs with Guarded => Some userId | Open => None end;
           collaborators := [] |} in
    (* Create initial version *)
    let db2 := createVersion db1
        {| documentId := id; ver_content := c; updatedById := userId |} in
    (db2, Json 201 (BDoc (findByPk db2 id)))
  end.

(** [router.put('/:id')] *)
Definition updateRoute (rs : RouteSet) (db : DB) (id : Z) (userId : Z)
    (newContent : string) : DB * Response :=
  match findByPk db id with
  | None => (db, Json 404 (BMessage "Document not found"))
  | Some document =>
    if denied rs document userId then
      (db, Json 403 (BMessage "Access denied"))
    else if bool_decide (content document = newContent) then
      (* Fetch and return document without creating new version *)
      (db, Json 200 (BDoc (findByPk db id)))
    else
      let lastVersion := findLastVersion db id in
      let db1 :=
        if shouldSnapshot lastVersion document then
          createVersion db
            {| documentId := id; ver_content := content document;
               updatedById := userId |}
        else db in
      let versionCount := countVersions db1 id in
      let db2 := saveDocument db1 id
          {| title := title document; content := newContent;
             currentVersion := versionCount; ownerId := ownerId document;
             collaborators := collaborators document |} in
      (db2, Json 200 (BDoc (findByPk db2 id)))
  end.

(** [router.post('/:id/revert/:versionIndex')]. When [versions[index]] is
    [undefined] the read of [.content] throws; the handler's [catch] rolls
    the transaction back and answers 500. *)
Definition revertRoute (rs : RouteSet) (db : DB) (id : Z)
    (versionIndex : JsNumber) (userId : Z) : DB * Response :=
  match findByPk db id with
  | None => (db, Json 404 (BMessage "Document not found"))
  | Some document =>
    if denied rs document userId then
      (db, Json 403 (BMessage "Access denied"))
    else
      let versions := findAllVersions db id in
      if indexOutOfRange versionIndex (length versions) then
        (db, Json 400 (BMessage "Invalid version index"))
      else
        let lastVersion := findLastVersion db id in
        let db1 :=
          if shouldSnapshot lastVersion document then
            createVersion db
              {| documentId := id; ver_content := content document;
                 updatedById := userId |}
          else db in
        match jsIndex versions versionIndex with
        | None => (db, Json 500 (BMessage "Server error"))
        | Some v =>
          let versionCount := countVersions db1 id in
          let db2 := saveDocument db1 id
              {| title := title document; content := ver_content v;
                 currentVersion := versionCount; ownerId := ownerId document;
                 collaborators := collaborators document |} in
          (db2, Json 200 (BDoc (findByPk db2 id)))
        end
  end.

(** *** [saveDocumentToDB] *)

(** What the [async] function does: throw, return nothing, or return
    [{ document, versionCount }]. *)
Inductive SaveResult :=
| SaveThrow (message : string)
| SaveUndefined
| SaveReturn (document : Document) (versionCount : nat).

(** The message of the error with which Sequelize's
    [transaction.rollback()] rejects on a transaction that was already
    rolled back. *)
Definition rollbackFinished : string :=
  "Transaction cannot be rolled back because it has been finished with state: rollback".

(** [saveDocumentToDB(documentId, content, userId, isExplicitSave)];
    [isExplicitSave] only changes what is logged. For a missing document
    and for a user without access the function rolls the transaction back
    and throws ('Document not found', 'Access denied') inside its [try]; the
    [catch] then calls [transaction.rollback()] a second time, which
    rejects, so the caller receives that error and not the one thrown. *)
Definition saveDocumentToDB (db : DB) (id : Z) (newContent : string)
    (userId : Z) (isExplicitSave : bool) : DB * SaveResult :=
  match findByPk db id with
  | None => (db, SaveThrow rollbackFinished)
  | Some document =>
    if negb (hasAccess document userId) then
      (db, SaveThrow rollbackFinished)
    else if bool_decide (content document = newContent) then
      (db, SaveUndefined)
    else
      let lastVersion := findLastVersion db id in
      let db1 :=
        if shouldSnapshot lastVersion document then
          createVersion db
            {| documentId := id; ver_content := content document;
               updatedById := userId |}
        else db in
      let versionCount := countVersions db1 id in
      let document' :=
          {| title := title document; content := newContent;
             currentVersion := versionCount; ownerId := ownerId document;
             collaborators := collaborators document |} in
      let db2 := saveDocument db1 id document' in
      (db2, SaveReturn document' versionCount)
  end.

(** ** The socket server *)

(** A connection: [socket.id] and the [socket.userId] set by the
    authentication middleware. *)
Record Socket := mkSocket {
  sid : nat;
  userId : Z
}.

(** Events sent to clients. The [timestamp] of [document-saved] is the row's
    [updatedAt], which the store model does not track; it is left out. *)
Inductive Emit :=
| EError (message : string) (error : option string)
| EUserJoined (user document : Z)
| EActiveUsers (users : list Z)
| EDocumentUpdate (newContent : string) (user : Z) (cursorPosition : Z)
    (timestamp : nat)
| ECursorUpdate (user : Z) (position : Z)
| EDocumentSaved (document : Z) (version : nat)
| EUserLeft (user document : Z).

(** Lines written by [console.log] after a committed save. *)
Inductive LogLine :=
| LogSaved (document : Z) (isExplicitSave : bool) (user : Z)
    (versionCount : nat)
| LogAutoSaveError (message : string).

(** An armed [setTimeout]: the time it becomes due and the variables its
    callback closes over ([documentId], [content], [socket.userId]). *)
Record Timeout := mkTimeout {
  deadline : nat;
  to_document : Z;
  to_content : string;
  to_user : Z
}.

(** The process state.
    - [documentRooms], [autoSaveTimers]: the two global [Map]s. A timer key
      [`${documentId}_${userId}`] is kept as the pair it is built from (the
      string is injective on integer ids), so [endsWith(`_${userId}`)] is a
      test on the second component.
    - [ioRooms]: socket.io's own room membership, by socket id.
    - [timeouts]: the timeouts that are armed (set, neither fired nor
      cleared); [nextHandle] numbers them.
    - [awaiting]: the auto-save callbacks suspended at
      [await saveDocumentToDB(...)], each with its [timerKey].
    - [clock]: [Date.now()] in milliseconds.
    - [outbox]: events delivered, with the receiving socket id. *)
Record Server := mkServer {
  db : DB;
  documentRooms : gmap Z (gset Z);
  autoSaveTimers : gmap (Z * Z) nat;
  ioRooms : gmap Z (gset nat);
  timeouts : gmap nat Timeout;
  nextHandle : nat;
  awaiting : list (Z * Z);
  clock : nat;
  outbox : list (nat * Emit);
  console : list LogLine
}.

Definition initServer (d : DB) : Server :=
  mkServer d ∅ ∅ ∅ ∅ 0 [] 0 [] [].

Definition ioRoom (σ : Server) (room : Z) : gset nat :=
  default ∅ (ioRooms σ !! room).

Definition set_db (σ : Server) (d : DB) : Server :=
  mkServer d (documentRooms σ) (autoSaveTimers σ) (ioRooms σ) (timeouts σ)
    (nextHandle σ) (awaiting σ) (clock σ) (outbox σ) (console σ).

Definition set_documentRooms (σ : Server) (r : gmap Z (gset Z)) : Server :=
  mkServer (db σ) r (autoSaveTimers σ) (ioRooms σ) (timeouts σ)
    (nextHandle σ) (awaiting σ) (clock σ) (outbox σ) (console σ).

Definition set_autoSaveTimers (σ : Server) (t : gmap (Z * Z) nat) : Server :=
  mkServer (db σ) (documentRooms σ) t (ioRooms σ) (timeouts σ)
    (nextHandle σ) (awaiting σ) (clock σ) (outbox σ) (console σ).

Definition set_ioRooms (σ : Server) (r : gmap Z (gset nat)) : Server :=
  mkServer (db σ) (documentRooms σ) (autoSaveTimers σ) r (timeouts σ)
    (nextHandle σ) (awaiting σ) (clock σ) (outbox σ) (console σ).

Definition set_timeouts (σ : Server) (t : gmap nat Timeout) : Server :=
  mkServer (db σ) (documentRooms σ) (autoSaveTimers σ) (ioRooms σ) t
    (nextHandle σ) (awaiting σ) (clock σ) (outbox σ) (console σ).

Definition set_awaiting (σ : Server) (a : list (Z * Z)) : Server :=
  mkServer (db σ) (documentRooms σ) (autoSaveTimers σ) (ioRooms σ)
    (timeouts σ) (nextHandle σ) a (clock σ) (outbox σ) (console σ).

Definition set_clock (σ : Server) (t : nat) : Server :=
  mkServer (db σ) (documentRooms σ) (autoSaveTimers σ) (ioRooms σ)
    (timeouts σ) (nextHandle σ) (awaiting σ) t (outbox σ) (console σ).

Definition log (σ : Server) (l : LogLine) : Server :=
  mkServer (db σ) (documentRooms σ) (autoSaveTimers σ) (ioRooms σ)
    (timeouts σ) (nextHandle σ) (awaiting σ) (clock σ) (outbox σ)
    (console σ ++ [l]).

Definition deliver (σ : Server) (msgs : list (nat * Emit)) : Server :=
  mkServer (db σ) (documentRooms σ) (autoSaveTimers σ) (ioRooms σ)
    (timeouts σ) (nextHandle σ) (awaiting σ) (clock σ) (outbox σ ++ msgs)
    (console σ).

(** [socket.emit(e)] *)
Definition socket_emit (σ : Server) (socket : Socket) (e : Emit) : Server :=
  deliver σ [(sid socket, e)].

(** [socket.to(room).emit(e)]: every socket of the room but the sender. *)
Definition socket_to_emit (σ : Server) (socket : Socket) (room : Z)
    (e : Emit) : Server :=
  deliver σ ((λ s, (s, e)) <$> elements (ioRoom σ room ∖ {[sid socket]})).

(** [io.to(room).emit(e)]: every socket of the room. *)
Definition io_to_emit (σ : Server) (room : Z) (e : Emit) : Server :=
  deliver σ ((λ s, (s, e)) <$> elements (ioRoom σ room)).

(** [socket.join(room)] and [socket.leave(room)] *)
Definition socket_join (σ : Server) (socket : Socket) (room : Z) : Server :=
  set_ioRooms σ (<[room := {[sid socket]} ∪ ioRoom σ room]> (ioRooms σ)).

Definition socket_leave (σ : Server) (socket : Socket) (room : Z) : Server :=
  set_ioRooms σ (<[room := ioRoom σ room ∖ {[sid socket]}]> (ioRooms σ)).

(** [clearTimeout(h)]: nothing happens when [h] already fired. *)
Definition clearTimeout (σ : Server) (h : nat) : Server :=
  set_timeouts σ (delete h (timeouts σ)).

(** [setTimeout(callback, delay)] *)
Definition setTimeout (σ : Server) (t : Timeout) : Server * nat :=
  (mkServer (db σ) (documentRooms σ) (autoSaveTimers σ) (ioRooms σ)
     (<[nextHandle σ := t]> (timeouts σ)) (S (nextHandle σ)) (awaiting σ)
     (clock σ) (outbox σ) (console σ),
   nextHandle σ).

(** *** Handlers *)

(** [socket.on('join-document')] *)
Definition on_join_document (σ : Server) (socket : Socket) (room : Z)
    : Server :=
  match findByPk (db σ) room with
  | None => socket_emit σ socket (EError "Document not found" None)
  | Some document =>
    if negb (hasAccess document (userId socket)) then
      socket_emit σ socket (EError "Access denied" None)
    else
      let σ1 := socket_join σ socket room in
      (* Track users in room *)
      let users := default ∅ (documentRooms σ1 !! room) in
      let σ2 :=
        set_documentRooms σ1
          (<[room := {[userId socket]} ∪ users]> (documentRooms σ1)) in
      let σ3 := socket_to_emit σ2 socket room
                  (EUserJoined (userId socket) room) in
      let activeUsers :=
        elements (default ∅ (documentRooms σ3 !! room)) in
      socket_emit σ3 socket (EActiveUsers activeUsers)
  end.

(** [socket.on('document-change')] *)
Definition on_document_change (σ : Server) (socket : Socket) (room : Z)
    (newContent : string) (cursorPosition : Z) : Server :=
  let σ1 := socket_to_emit σ socket room
      (EDocumentUpdate newContent (userId socket) cursorPosition (clock σ)) in
  let timerKey := (room, userId socket) in
  (* Clear existing timer *)
  let σ2 :=
    match autoSaveTimers σ1 !! timerKey with
    | Some h => clearTimeout σ1 h
    | None => σ1
    end in
  (* Set new timer for auto-save *)
  let '(σ3, timer) :=
    setTimeout σ2
      {| deadline := clock σ2 + 2000; to_document := room;
         to_content := newContent; to_user := userId socket |} in
  set_autoSaveTimers σ3 (<[timerKey := timer]> (autoSaveTimers σ3)).

(** The auto-save callback, up to its [await]: the timeout [h] is due and
    fires, and [saveDocumentToDB] runs. The callback is then suspended until
    the call settles. *)
Definition timer_fire (σ : Server) (h : nat) : option Server :=
  match timeouts σ !! h with
  | None => None
  | Some t =>
    if bool_decide (deadline t ≤ clock σ)%nat then
      let σ1 := set_timeouts σ (delete h (timeouts σ)) in
      let '(db', r) :=
        saveDocumentToDB (db σ1) (to_document t) (to_content t) (to_user t)
          false in
      let σ2 := set_db σ1 db' in
      let σ3 :=
        match r with
        | SaveReturn _ versionCount =>
            log σ2 (LogSaved (to_document t) false (to_user t) versionCount)
        | SaveThrow m => log σ2 (LogAutoSaveError m)
        | SaveUndefined => σ2
        end in
      Some (set_awaiting σ3 (awaiting σ3 ++ [(to_document t, to_user t)]))
    else None
  end.

(** Removes the first occurrence of [k]. *)
Fixpoint remove_first (k : Z * Z) (l : list (Z * Z)) : list (Z * Z) :=
  match l with
  | [] => []
  | x :: l' => if bool_decide (x = k) then l' else x :: remove_first k l'
  end.

(** The rest of the auto-save callback, after the [await], in the [try] as
    in the [catch] branch: [autoSaveTimers.delete(timerKey)]. *)
Definition timer_resume (σ : Server) (timerKey : Z * Z) : option Server :=
  if bool_decide (timerKey ∈ awaiting σ) then
    let σ1 := set_awaiting σ (remove_first timerKey (awaiting σ)) in
    Some (set_autoSaveTimers σ1 (delete timerKey (autoSaveTimers σ1)))
  else None.

(** [socket.on('cursor-position')] *)
Definition on_cursor_position (σ : Server) (socket : Socket) (room : Z)
    (position : Z) : Server :=
  socket_to_emit σ socket room (ECursorUpdate (userId socket) position).

(** [socket.on('save-document')]. After a save that did not throw, the
    document is read again; reading [currentVersion] of [null] throws and
    lands in the same [catch]. *)
Definition on_save_document (σ : Server) (socket : Socket) (room : Z)
    (newContent : string) : Server :=
  let timerKey := (room, userId socket) in
  (* Clear any pending auto-save timer *)
  let σ1 :=
    match autoSaveTimers σ !! timerKey with
    | Some h =>
        let σ' := clearTimeout σ h in
        set_autoSaveTimers σ' (delete timerKey (autoSaveTimers σ'))
    | None => σ
    end in
  let '(db', r) :=
    saveDocumentToDB (db σ1) room newContent (userId socket) true in
  let σ2 := set_db σ1 db' in
  match r with
  | SaveThrow m =>
      socket_emit σ2 socket (EError "Failed to save document" (Some m))
  | SaveUndefined | SaveReturn _ _ =>
      let σ3 :=
        match r with
        | SaveReturn _ versionCount =>
            log σ2 (LogSaved room true (userId socket) versionCount)
        | _ => σ2
        end in
      (* Notify all users in the room *)
      match findByPk (db σ3) room with
      | Some document =>
          io_to_emit σ3 room (EDocumentSaved room (currentVersion document))
      | None =>
          socket_emit σ3 socket
            (EError "Failed to save document"
               (Some "Cannot read properties of null"))
      end
  end.

(** [socket.on('leave-document')] *)
Definition on_leave_document (σ : Server) (socket : Socket) (room : Z)
    : Server :=
  let σ1 := socket_leave σ socket room in
  let σ2 :=
    match documentRooms σ1 !! room with
    | Some users =>
        let users' := users ∖ {[userId socket]} in
        if bool_decide (size users' = 0) then
          set_documentRooms σ1 (delete room (documentRooms σ1))
        else
          set_documentRooms σ1 (<[room := users']> (documentRooms σ1))
    | None => σ1
    end in
  socket_to_emit σ2 socket room (EUserLeft (userId socket) room).

(** What the [documentRooms.forEach] of the disconnect handler does to one
    room: [None] when the entry is deleted. *)
Definition disconnect_room (u : Z) (users : gset Z) : option (gset Z) :=
  if bool_decide (u ∈ users) then
    let users' := users ∖ {[u]} in
    if bool_decide (size users' = 0) then None else Some users'
  else Some users.

(** The loop of the disconnect handler over [autoSaveTimers], on the
    entries [l] whose key ends with the user's id: [clearTimeout(timer)] and
    [autoSaveTimers.delete(timerKey)]. Its [await] only reads the document
    and logs. *)
Definition clear_user_timers (σ : Server) (l : list (Z * Z * nat)) : Server :=
  foldl (λ s kv,
           let s' := clearTimeout s kv.2 in
           set_autoSaveTimers s' (delete kv.1 (autoSaveTimers s')))
        σ l.

(** The [user-left] events of the loop over [documentRooms], on the rooms
    [l] that have the user. *)
Definition announce_departure (σ : Server) (socket : Socket)
    (l : list (Z * gset Z)) : Server :=
  foldl (λ s kv, socket_to_emit s socket kv.1
                   (EUserLeft (userId socket) kv.1))
        σ l.

(** [socket.on('disconnect')]. socket.io has taken the socket out of its
    rooms before the event is raised. The first loop forgets every timer of
    the user, the second removes the user from every room. The first loop
    waits at an [await] after each timer it clears; this is the handler run
    to its end with no other event handled in between. The second loop has
    no [await]. *)
Definition on_disconnect (σ : Server) (socket : Socket) : Server :=
  let σ0 := set_ioRooms σ ((λ s, s ∖ {[sid socket]}) <$> ioRooms σ) in
  let mine :=
    filter (λ kv, kv.1.2 = userId socket) (map_to_list (autoSaveTimers σ0)) in
  let σ1 := clear_user_timers σ0 mine in
  let left :=
    filter (λ kv, userId socket ∈ kv.2) (map_to_list (documentRooms σ1)) in
  let σ2 := announce_departure σ1 socket left in
  set_documentRooms σ2
    (omap (disconnect_room (userId socket)) (documentRooms σ2)).

(** The clock moves forward. *)
Definition advance (σ : Server) (dt : nat) : Server :=
  set_clock σ (clock σ + dt).

(** [timerKey] of an armed timeout, and the timeouts armed for a key: the
    pending saves of a (document, user) pair. *)
Definition timeout_key (t : Timeout) : Z * Z := (to_document t, to_user t).

Definition pendingSaves (σ : Server) (timerKey : Z * Z) : list (nat * Timeout) :=
  filter (λ ht, timeout_key ht.2 = timerKey) (map_to_list (timeouts σ)).

(** Things that happen to the process, one at a time (the event loop). *)
Inductive Action :=
| ATick (dt : nat)
| AChange (socket : Socket) (room : Z) (newContent : string)
    (cursorPosition : Z)
| AFire (h : nat)
| AResume (timerKey : Z * Z).

Definition act (σ : Server) (a : Action) : option Server :=
  match a with
  | ATick dt => Some (advance σ dt)
  | AChange socket room c pos => Some (on_document_change σ socket room c pos)
  | AFire h => timer_fire σ h
  | AResume k => timer_resume σ k
  end.

Fixpoint run (σ : Server) (l : list Action) : option Server :=
  match l with
  | [] => Some σ
  | a :: l' =>
    match act σ a with
    | Some σ' => run σ' l'
    | None => None
    end
  end.

(** ** Writes to the store and the states they reach *)

Inductive StoreOp :=
| OpCreate (rs : RouteSet) (user : Z) (reqTitle reqContent : option string)
| OpUpdate (rs : RouteSet) (id : Z) (user : Z) (newContent : string)
| OpRevert (rs : RouteSet) (id : Z) (versionIndex : JsNumber) (user : Z)
| OpSave (id : Z) (newContent : string) (user : Z) (isExplicitSave : bool).

Inductive Outcome :=
| Http (r : Response)
| Saved (r : SaveResult).

Definition runOp (d : DB) (op : StoreOp) : DB * Outcome :=
  match op with
  | OpCreate rs u t c => let '(d', r) := createRoute rs d u t c in (d', Http r)
  | OpUpdate rs id u c => let '(d', r) := updateRoute rs d id u c in (d', Http r)
  | OpRevert rs id i u => let '(d', r) := revertRoute rs d id i u in (d', Http r)
  | OpSave id c u e => let '(d', r) := saveDocumentToDB d id c u e in (d', Saved r)
  end.

(** The document an operation is about; a creation is about the id it is
    going to assign. *)
Definition target (d : DB) (op : StoreOp) : Z :=
  match op with
  | OpCreate _ _ _ _ => nextId d
  | OpUpdate _ id _ _ | OpRevert _ id _ _ | OpSave id _ _ _ => id
  end.

(** The content change an operation asks for: document, author, content. *)
Definition contentChange (op : StoreOp) : option (Z * Z * string) :=
  match op with
  | OpUpdate _ id u c | OpSave id c u _ => Some (id, u, c)
  | _ => None
  end.

Definition liveContent (d : DB) (id : Z) : option string :=
  content <$> findByPk d id.

(** The operation committed a write: a creation answered 201, a revert 200,
    [saveDocumentToDB] returned a value, an update answered 200 for a
    content that differs from the stored one. *)
Definition wrote (d : DB) (op : StoreOp) : bool :=
  match op, (runOp d op).2 with
  | OpCreate _ _ _ _, Http (Json 201 _) => true
  | OpRevert _ _ _ _, Http (Json 200 _) => true
  | OpUpdate _ id _ c, Http (Json 200 _) =>
      negb (bool_decide (liveContent d id = Some c))
  | OpSave _ _ _ _, Saved (SaveReturn _ _) => true
  | _, _ => false
  end.

Inductive reachable : DB → Prop :=
| reach_init : reachable emptyDB
| reach_step d op : reachable d → reachable (runOp d op).1.

(** No two neighbours of the list are equal. *)
Definition NoStutter (l : list string) : Prop :=
  ∀ i a b, l !! i = Some a → l !! S i = Some b → a ≠ b.

(** Version rows and documents only use ids that were handed out. *)
Definition idsBelowNext (d : DB) : Prop :=
  (∀ v, v ∈ document_versions d → (documentId v < nextId d)%Z) ∧
  (∀ id, is_Some (documents d !! id) → (id < nextId d)%Z).

(** The other connections a user still has in a socket.io room. *)
Definition otherConnections (σ : Server) (socks : list Socket) (room : Z)
    (socket : Socket) : list Socket :=
  filter (λ s, userId s = userId socket ∧ sid s ≠ sid socket
               ∧ sid s ∈ ioRoom σ room) socks.

(** The block shared by update, revert and [saveDocumentToDB], which each
    route spells out in full: snapshot the live content unless the newest
    version already holds it, then store the new content with a recount. *)
Definition snapshot (d : DB) (id : Z) (document : Document) (u : Z) : DB :=
  if shouldSnapshot (findLastVersion d id) document then
    createVersion d
      {| documentId := id; ver_content := content document; updatedById := u |}
  else d.

Definition installed (d : DB) (id : Z) (document : Document) (u : Z)
    (c : string) : Document :=
  {| title := title document; content := c;
     currentVersion := countVersions (snapshot d id document u) id;
     ownerId := ownerId document; collaborators := collaborators document |}.

Definition install (d : DB) (id : Z) (document : Document) (u : Z)
    (c : string) : DB :=
  saveDocument (snapshot d id document u) id (installed d id document u c).

(** The store after [router.post('/')] accepted the document [doc]. *)
Definition created (d : DB) (doc : Document) (u : Z) : DB :=
  createVersion (insertDocument d doc).1
    (mkDocumentVersion (nextId d) (content doc) u).

(** ** Sample states

    A document "notes" with content "a" created by user 7 through the
    guarded routes, then edited to "b", then reverted to version 0. *)
Definition db_created : DB :=
  (runOp emptyDB (OpCreate Guarded 7 (Some "notes") (Some "a"))).1.

Definition db_edited : DB :=
  (runOp db_created (OpUpdate Guarded 1 7 "b")).1.

Definition db_reverted : DB :=
  (runOp db_edited (OpRevert Guarded 1 (JsInt 0) 7)).1.

(** Two tabs of user 7 and a connection of user 9, who is neither owner
    nor collaborator of document 1. *)
Definition tabA : Socket := mkSocket 1 7.
Definition tabB : Socket := mkSocket 2 7.
Definition stranger : Socket := mkSocket 3 9.

(** Both tabs have joined the room of document 1. *)
Definition two_tabs : Server :=
  on_join_document (on_join_document (initServer db_created) tabA 1) tabB 1.

(** Every armed timeout of the pair is the one [autoSaveTimers] holds for
    it, and handles in use are below the next one. *)
Definition registered (σ : Server) (timerKey : Z * Z) : Prop :=
  ∀ h t, timeouts σ !! h = Some t → timeout_key t = timerKey →
         autoSaveTimers σ !! timerKey = Some h.

Definition handles_fresh (σ : Server) : Prop :=
  ∀ h, is_Some (timeouts σ !! h) → h < nextHandle σ.

(** An edit "A" whose auto-save is due and has started: its callback waits
    for the store at time 2010. *)
Definition save_in_flight : list Action :=
  [AChange tabA 1 "A" 0; ATick 2000; AFire 0; ATick 10].

(** Two edits 90 ms apart, "B" then "C"; between them the earlier callback
    resumes. *)
Definition two_edits : list Action :=
  [AChange tabA 1 "B" 0; ATick 40; AResume (1, 7)%Z; ATick 50;
   AChange tabA 1 "C" 0].

(** Both timeouts become due and run. *)
Definition timers_run : list Action :=
  [ATick 1910; AFire 1; AResume (1, 7)%Z; ATick 90; AFire 2;
   AResume (1, 7)%Z].

Definition in_flight : option Server := run two_tabs save_in_flight.

Definition after_two_edits : option Server :=
  in_flight ≫= λ σ, run σ two_edits.

Definition after_timers : option Server :=
  after_two_edits ≫= λ σ, run σ timers_run.

(** A burst: edits of one connection to one document, with time passing
    in between, and nothing else. *)
Definition in_burst (socket : Socket) (room : Z) (a : Action) : Prop :=
  match a with
  | ATick _ => True
  | AChange s r _ _ => s = socket ∧ r = room
  | AFire _ | AResume _ => False
  end.

(** The content of the last edit of a list of actions, [acc] if none. *)
Fixpoint lastEdit (acc : option string) (l : list Action) : option string :=
  match l with
  | [] => acc
  | AChange _ _ c _ :: l' => lastEdit (Some c) l'
  | _ :: l' => lastEdit acc l'
  end.

(** The pair has exactly one armed timeout, and it carries [c]. *)
Definition onePending (σ : Server) (timerKey : Z * Z) (c : string) : Prop :=
  ∃ h t, timeouts σ !! h = Some t ∧ timeout_key t = timerKey ∧
         to_content t = c ∧
         ∀ h' t', timeouts σ !! h' = Some t' → timeout_key t' = timerKey →
                  h' = h.

(** ** Further routes of the document router *)

(** [document.destroy()]: the row goes, and with it the versions that
    reference it (the association and the migration both declare
    [onDelete: 'CASCADE']). *)
Definition destroyDocument (d : DB) (id : Z) : DB :=
  mkDB (delete id (documents d))
       (filter (λ v, documentId v ≠ id) (document_versions d))
       (nextId d).

(** [router.delete('/:id')]. The guarded route set lets only the owner
    delete ([document.ownerId !== parseInt(req.userId)]); the public one
    lets everyone. *)
Definition deleteRoute (rs : RouteSet) (d : DB) (id : Z) (userId : Z)
    : DB * Response :=
  match findByPk d id with
  | None => (d, Json 404 (BMessage "Document not found"))
  | Some document =>
    if match rs with
       | Guarded => negb (bool_decide (ownerId document = Some userId))
       | Open => false
       end
    then (d, Json 403 (BMessage "Only the owner can delete this document"))
    else (destroyDocument d id,
          Json 200 (BMessage "Document deleted successfully"))
  end.

(** The answer of [router.get('/:id/versions')]: the rows, or a status with
    a message. *)
Inductive VersionsResponse :=
| VersionsJson (versions : list DocumentVersion)
| VersionsError (status : nat) (message : string).

(** [router.get('/:id/versions')] *)
Definition versionsRoute (rs : RouteSet) (d : DB) (id : Z) (userId : Z)
    : VersionsResponse :=
  match findByPk d id with
  | None => VersionsError 404 "Document not found"
  | Some document =>
    if denied rs document userId then VersionsError 403 "Access denied"
    else VersionsJson (findAllVersions d id)
  end.

(** No room entry holds an empty member set. *)
Definition rooms_nonempty (σ : Server) : Prop :=
  ∀ room users, documentRooms σ !! room = Some users → users ≠ ∅.

(** The messages a handler added to the outbox. *)
Definition sent (σ σ' : Server) : list (nat * Emit) :=
  drop (length (outbox σ)) (outbox σ').

(** Requests to the document router that can change the store, deletion
    included, and the store after a list of them. *)
Inductive StoreAct :=
| ActOp (op : StoreOp)
| ActDelete (rs : RouteSet) (id : Z) (user : Z).

Definition runAct (d : DB) (a : StoreAct) : DB :=
  match a with
  | ActOp op => (runOp d op).1
  | ActDelete rs id u => (deleteRoute rs d id u).1
  end.

Definition runActs (l : list StoreAct) : DB := foldl runAct emptyDB l.

(** ** Accounts ([routes/auth.js]) *)

(** A row of [users]. What [User.create] stores as [password] and how
    [user.comparePassword] tests a candidate are decided in [models/User.js];
    [jwt.sign] makes the token from the user id and, because of
    [expiresIn], from the time of the call. These three enter the routes as
    parameters, and the routes take the time of the request. *)
Record User := mkUser {
  username : string;
  email : string;
  password : string
}.

(** The table in insertion order, each row with its id, and the
    auto-increment counter. *)
Record Users := mkUsers {
  rows : list (Z * User);
  nextUserId : Z
}.

Inductive AuthBody :=
| ABToken (token : string) (id : Z) (name mail : string)
| ABUser (id : Z) (name mail : string)
| ABMessage (m : string).

Inductive AuthResponse := AuthJson (status : nat) (body : AuthBody).

(** [!field]: missing, or the empty string. *)
Definition missing (field : option string) : bool :=
  match field with
  | None | Some "" => true
  | Some _ => false
  end.

Section Auth.
Variable storedPassword : string → string.
Variable comparePassword : User → string → bool.
Variable sign : Z → nat → string.

(** [User.findOne({ where: { [Op.or]: [{ email }, { username }] } })] *)
Definition findByEmailOrName (us : Users) (e n : string) : option (Z * User) :=
  head (filter (λ r, email r.2 = e ∨ username r.2 = n) (rows us)).

(** [User.findOne({ where: { email } })] *)
Definition findByEmail (us : Users) (e : string) : option (Z * User) :=
  head (filter (λ r, email r.2 = e) (rows us)).

(** [router.post('/register')] *)
Definition registerRoute (now : nat) (us : Users)
    (reqName reqEmail reqPassword : option string) : Users * AuthResponse :=
  if missing reqName || missing reqEmail || missing reqPassword then
    (us, AuthJson 400 (ABMessage "Please provide all required fields"))
  else
    let n := default "" reqName in
    let e := default "" reqEmail in
    let p := default "" reqPassword in
    match findByEmailOrName us e n with
    | Some _ => (us, AuthJson 400 (ABMessage "User already exists"))
    | None =>
      let id := nextUserId us in
      let user := mkUser n e (storedPassword p) in
      (mkUsers (rows us ++ [(id, user)]) (id + 1)%Z,
       AuthJson 201 (ABToken (sign id now) id n e))
    end.

(** [router.post('/login')] *)
Definition loginRoute (now : nat) (us : Users)
    (reqEmail reqPassword : option string) : AuthResponse :=
  if missing reqEmail || missing reqPassword then
    AuthJson 400 (ABMessage "Please provide email and password")
  else
    match findByEmail us (default "" reqEmail) with
    | None => AuthJson 400 (ABMessage "Invalid credentials")
    | Some (id, user) =>
      if comparePassword user (default "" reqPassword) then
        AuthJson 200 (ABToken (sign id now) id (username user) (email user))
      else AuthJson 400 (ABMessage "Invalid credentials")
    end.

(** [router.get('/me')]: the row of [req.userId] without its password. *)
Definition meRoute (us : Users) (reqUserId : Z) : AuthResponse :=
  match head (filter (λ r, r.1 = reqUserId) (rows us)) with
  | None => AuthJson 404 (ABMessage "User not found")
  | Some (id, user) => AuthJson 200 (ABUser id (username user) (email user))
  end.
End Auth.

(** Emails, user names and ids are pairwise distinct, and ids are below the
    counter. *)
Definition usersDistinct (us : Users) : Prop :=
  NoDup ((λ r, email r.2) <$> rows us) ∧
  NoDup ((λ r, username r.2) <$> rows us) ∧
  NoDup (fst <$> rows us) ∧
  ∀ r, r ∈ rows us → (r.1 < nextUserId us)%Z.

(** ** Connection settings ([config]) *)

(** A double quote (code 34) or a single quote (code 39). *)
Definition isQuote (a : Ascii.ascii) : bool :=
  Ascii.eqb a (Ascii.ascii_of_nat 34) || Ascii.eqb a (Ascii.ascii_of_nat 39).

Definition stripLeading (s : string) : string :=
  match s with
  | String a s' => if isQuote a then s' else s
  | EmptyString => EmptyString
  end.

Fixpoint stripTrailing (s : string) : string :=
  match s with
  | EmptyString => EmptyString
  | String a EmptyString => if isQuote a then EmptyString else s
  | String a s' => String a (stripTrailing s')
  end.

(** [value.replace(/^["']|["']$/g, '')]: a quote at the start is removed,
    and so is a quote at the end of what is left. *)
Definition stripQuotes (s : string) : string :=
  stripTrailing (stripLeading s).

(** The last character of a string. *)
Fixpoint lastChar (s : string) : option Ascii.ascii :=
  match s with
  | EmptyString => None
  | String a EmptyString => Some a
  | String _ s' => lastChar s'
  end.

(** * Properties *)

(** ** The store primitives *)

Section Primitives.
Implicit Types (d : DB) (id : Z) (v : DocumentVersion) (doc : Document).

Lemma findAllVersions_createVersion d v id :
  findAllVersions (createVersion d v) id =
  findAllVersions d id ++ (if decide (documentId v = id) then [v] else []).
Proof.
  unfold findAllVersions, createVersion; simpl.
  by rewrite list.filter_app.
Qed.

Lemma findAllVersions_saveDocument d id doc id' :
  findAllVersions (saveDocument d id doc) id' = findAllVersions d id'.
Proof. reflexivity. Qed.

Lemma findByPk_saveDocument d id doc :
  findByPk (saveDocument d id doc) id = Some doc.
Proof. unfold findByPk, saveDocument; simpl. apply lookup_insert_eq. Qed.

Lemma findByPk_saveDocument_ne d id doc id' :
  id ≠ id' → findByPk (saveDocument d id doc) id' = findByPk d id'.
Proof.
  intros. unfold findByPk, saveDocument; simpl. by apply lookup_insert_ne.
Qed.

Lemma findByPk_createVersion d v id :
  findByPk (createVersion d v) id = findByPk d id.
Proof. reflexivity. Qed.

Lemma last_ledger d id :
  list.last (ledger d id) = ver_content <$> findLastVersion d id.
Proof. unfold ledger, findLastVersion. by rewrite fmap_last. Qed.

Lemma length_ledger d id : length (ledger d id) = countVersions d id.
Proof. unfold ledger, countVersions. by rewrite length_fmap. Qed.

Lemma shouldSnapshot_spec d id doc :
  shouldSnapshot (findLastVersion d id) doc = false ↔
  list.last (ledger d id) = Some (content doc).
Proof.
  rewrite last_ledger. unfold shouldSnapshot.
  destruct (findLastVersion d id) as [v|]; simpl.
  - case_bool_decide; simpl; split; intros; try done; congruence.
  - split; intros; done.
Qed.

(** What the shared block does to the ledger of its document. *)
Lemma ledger_snapshot d id doc u :
  ledger (snapshot d id doc u) id =
  ledger d id ++
    (if decide (list.last (ledger d id) = Some (content doc)) then []
     else [content doc]).
Proof.
  unfold snapshot.
  destruct (shouldSnapshot (findLastVersion d id) doc) eqn:E.
  - destruct (decide _) as [L|L].
    + apply shouldSnapshot_spec in L. congruence.
    + unfold ledger. rewrite findAllVersions_createVersion; simpl.
      rewrite decide_True by done. by rewrite fmap_app.
  - apply shouldSnapshot_spec in E. rewrite decide_True by done.
    by rewrite app_nil_r.
Qed.

Lemma versions_snapshot d id doc u :
  document_versions (snapshot d id doc u) =
  document_versions d ++
    (if decide (list.last (ledger d id) = Some (content doc)) then []
     else [mkDocumentVersion id (content doc) u]).
Proof.
  unfold snapshot.
  destruct (shouldSnapshot (findLastVersion d id) doc) eqn:E.
  - destruct (decide _) as [L|L]; [|done].
    apply shouldSnapshot_spec in L. congruence.
  - apply shouldSnapshot_spec in E. rewrite decide_True by done.
    by rewrite app_nil_r.
Qed.

Lemma ledger_snapshot_ne d id doc u id' :
  id ≠ id' → ledger (snapshot d id doc u) id' = ledger d id'.
Proof.
  intros Hne. unfold snapshot.
  destruct (shouldSnapshot _ _); [|done].
  unfold ledger. rewrite findAllVersions_createVersion; simpl.
  rewrite decide_False by done. by rewrite app_nil_r.
Qed.

Lemma ledger_install d id doc u c :
  ledger (install d id doc u c) id =
  ledger d id ++
    (if decide (list.last (ledger d id) = Some (content doc)) then []
     else [content doc]).
Proof. apply ledger_snapshot. Qed.

Lemma ledger_install_ne d id doc u c id' :
  id ≠ id' → ledger (install d id doc u c) id' = ledger d id'.
Proof. apply ledger_snapshot_ne. Qed.

Lemma last_ledger_install d id doc u c :
  list.last (ledger (install d id doc u c) id) = Some (content doc).
Proof.
  rewrite ledger_install. destruct (decide _) as [L|L].
  - by rewrite app_nil_r.
  - by rewrite last_snoc.
Qed.

Lemma findByPk_install d id doc u c :
  findByPk (install d id doc u c) id = Some (installed d id doc u c).
Proof. apply findByPk_saveDocument. Qed.

Lemma nextId_install d id doc u c : nextId (install d id doc u c) = nextId d.
Proof. unfold install, snapshot. by destruct (shouldSnapshot _ _). Qed.

Lemma documents_install d id doc u c :
  documents (install d id doc u c) =
  <[id := installed d id doc u c]> (documents d).
Proof. unfold install, snapshot. by destruct (shouldSnapshot _ _). Qed.

Lemma countVersions_install d id doc u c :
  countVersions (install d id doc u c) id =
  currentVersion (installed d id doc u c).
Proof. reflexivity. Qed.
End Primitives.

(** ** The routes in terms of the shared block *)

Section Routes.
Implicit Types (d : DB) (id u : Z) (doc : Document) (c : string).

Lemma updateRoute_applied rs d id u c doc :
  findByPk d id = Some doc → denied rs doc u = false → content doc ≠ c →
  updateRoute rs d id u c =
  (install d id doc u c,
   Json 200 (BDoc (Some (installed d id doc u c)))).
Proof.
  intros Hf Hd Hc. unfold updateRoute. rewrite Hf, Hd.
  rewrite bool_decide_eq_false_2 by done.
  fold (snapshot d id doc u). fold (installed d id doc u c).
  fold (install d id doc u c). by rewrite findByPk_install.
Qed.

Lemma updateRoute_unchanged rs d id u doc :
  findByPk d id = Some doc → denied rs doc u = false →
  updateRoute rs d id u (content doc) = (d, Json 200 (BDoc (Some doc))).
Proof.
  intros Hf Hd. unfold updateRoute. rewrite Hf, Hd.
  by rewrite bool_decide_eq_true_2 by done.
Qed.

Lemma saveDocumentToDB_applied d id u c e doc :
  findByPk d id = Some doc → hasAccess doc u = true → content doc ≠ c →
  saveDocumentToDB d id c u e =
  (install d id doc u c,
   SaveReturn (installed d id doc u c)
     (currentVersion (installed d id doc u c))).
Proof.
  intros Hf Hd Hc. unfold saveDocumentToDB. rewrite Hf, Hd; simpl.
  by rewrite bool_decide_eq_false_2 by done.
Qed.

Lemma saveDocumentToDB_unchanged d id u e doc :
  findByPk d id = Some doc → hasAccess doc u = true →
  saveDocumentToDB d id (content doc) u e = (d, SaveUndefined).
Proof.
  intros Hf Hd. unfold saveDocumentToDB. rewrite Hf, Hd; simpl.
  by rewrite bool_decide_eq_true_2 by done.
Qed.

Lemma saveDocumentToDB_denied d id u c e doc :
  findByPk d id = Some doc → hasAccess doc u = false →
  saveDocumentToDB d id c u e = (d, SaveThrow rollbackFinished).
Proof.
  intros Hf Hd. unfold saveDocumentToDB. by rewrite Hf, Hd.
Qed.

Lemma revertRoute_applied rs d id i u doc v :
  findByPk d id = Some doc → denied rs doc u = false →
  indexOutOfRange i (length (findAllVersions d id)) = false →
  jsIndex (findAllVersions d id) i = Some v →
  revertRoute rs d id i u =
  (install d id doc u (ver_content v),
   Json 200 (BDoc (Some (installed d id doc u (ver_content v))))).
Proof.
  intros Hf Hd Hr Hi. unfold revertRoute. rewrite Hf, Hd, Hr, Hi.
  fold (snapshot d id doc u). fold (installed d id doc u (ver_content v)).
  fold (install d id doc u (ver_content v)). by rewrite findByPk_install.
Qed.

Lemma jsIndex_in_range {A} (l : list A) (z : Z) :
  indexOutOfRange (JsInt z) (length l) = false →
  ∃ x, jsIndex l (JsInt z) = Some x ∧ l !! Z.to_nat z = Some x.
Proof.
  unfold indexOutOfRange, jsIndex. intros H.
  apply orb_false_iff in H as [H1 H2].
  apply bool_decide_eq_false in H1. apply bool_decide_eq_false in H2.
  rewrite bool_decide_eq_true_2 by lia.
  destruct (lookup_lt_is_Some_2 l (Z.to_nat z)) as [x Hx]; [lia|].
  exists x. by rewrite Hx.
Qed.

(** A write that committed went through the shared block. *)
Lemma wrote_change d op id u c :
  contentChange op = Some (id, u, c) → wrote d op = true →
  ∃ doc, findByPk d id = Some doc ∧ content doc ≠ c ∧
         (runOp d op).1 = install d id doc u c.
Proof.
  destruct op as [| rs id0 u0 c0 | | id0 c0 u0 e]; simpl; try done;
    intros [= -> -> ->]; unfold wrote; simpl.
  - unfold liveContent, updateRoute.
    destruct (findByPk d id) as [doc|] eqn:Hf; [|done].
    destruct (denied rs doc u) eqn:Hd; [done|].
    case_bool_decide as Hc; simpl.
    + rewrite bool_decide_eq_true_2 by congruence. done.
    + intros _. exists doc. done.
  - unfold saveDocumentToDB.
    destruct (findByPk d id) as [doc|] eqn:Hf; [|done].
    destruct (hasAccess doc u) eqn:Hd; simpl; [|done].
    case_bool_decide as Hc; simpl; [done|].
    intros _. exists doc. done.
Qed.

Lemma wrote_revert d rs id i u :
  wrote d (OpRevert rs id i u) = true →
  ∃ doc v, findByPk d id = Some doc ∧
           jsIndex (findAllVersions d id) i = Some v ∧
           (runOp d (OpRevert rs id i u)).1 = install d id doc u (ver_content v).
Proof.
  unfold wrote; simpl. unfold revertRoute.
  destruct (findByPk d id) as [doc|] eqn:Hf; [|done].
  destruct (denied rs doc u) eqn:Hd; [done|].
  destruct (indexOutOfRange _ _) eqn:Hr; [done|].
  destruct (jsIndex _ _) as [v|] eqn:Hi; [|done].
  intros _. exists doc, v. done.
Qed.

Lemma wrote_create d rs u (t rc : option string) :
  wrote d (OpCreate rs u t rc) = true →
  ∃ doc, (runOp d (OpCreate rs u t rc)).1 =
           createVersion (insertDocument d doc).1
             (mkDocumentVersion (nextId d) (content doc) u)
         ∧ currentVersion doc = 0.
Proof.
  unfold wrote; simpl. unfold createRoute.
  destruct t as [t|]; [|done].
  destruct t as [|a t]; [done|]. simpl. intros _.
  exists {| title := String a t; content := default "" rc;
            currentVersion := 0;
            ownerId := match rs with Guarded => Some u | Open => None end;
            collaborators := [] |}.
  split; reflexivity.
Qed.
End Routes.

(** ** Invariants of the ledger *)

Section Ledger.
Implicit Types (d : DB) (id u : Z) (doc : Document) (c : string).

Lemma NoStutter_nil : NoStutter [].
Proof. intros i a b H. by rewrite lookup_nil in H. Qed.

Lemma NoStutter_singleton c : NoStutter [c].
Proof. intros [|i] a b _ H; simpl in H; by rewrite ?lookup_nil in H. Qed.

Lemma NoStutter_snoc (l : list string) c :
  NoStutter l → list.last l ≠ Some c → NoStutter (l ++ [c]).
Proof.
  intros Hl Hc i a b Ha Hb.
  destruct (decide (S i < length l)) as [Hlt|Hge].
  - rewrite lookup_app_l in Ha by lia. rewrite lookup_app_l in Hb by lia.
    by apply (Hl i).
  - assert (S i = length l) as Hi.
    { apply lookup_lt_Some in Hb. rewrite length_app in Hb. simpl in Hb. lia. }
    rewrite lookup_app_l in Ha by lia.
    rewrite Hi, lookup_app_r in Hb by lia.
    rewrite Nat.sub_diag in Hb. simpl in Hb. injection Hb as <-.
    rewrite last_lookup in Hc.
    replace (Init.Nat.pred (length l)) with i in Hc by lia.
    congruence.
Qed.

Lemma NoStutter_install d id doc u c id' :
  NoStutter (ledger d id') → NoStutter (ledger (install d id doc u c) id').
Proof.
  intros H. destruct (decide (id = id')) as [<-|Hne].
  - rewrite ledger_install. destruct (decide _) as [L|L].
    + by rewrite app_nil_r.
    + by apply NoStutter_snoc.
  - by rewrite ledger_install_ne.
Qed.

Lemma idsBelowNext_install d id doc u c :
  idsBelowNext d → findByPk d id = Some doc →
  idsBelowNext (install d id doc u c).
Proof.
  intros [Hv Hd] Hf.
  assert (id < nextId d)%Z as Hid by (apply Hd; exists doc; exact Hf).
  split; rewrite nextId_install.
  - intros v. unfold install, saveDocument; simpl.
    rewrite versions_snapshot. rewrite elem_of_app. intros [Hin|Hin].
    + by apply Hv.
    + destruct (decide _); [by apply elem_of_nil in Hin|].
      apply list_elem_of_singleton in Hin as ->. done.
  - intros id'. rewrite documents_install.
    destruct (decide (id = id')) as [<-|Hne]; [done|].
    rewrite lookup_insert_ne by done. apply Hd.
Qed.

Lemma ledger_created d doc u id :
  ledger (created d doc u) id =
  ledger d id ++ (if decide (nextId d = id) then [content doc] else []).
Proof.
  unfold created, ledger. rewrite findAllVersions_createVersion; simpl.
  rewrite fmap_app. f_equal. by destruct (decide _).
Qed.

Lemma ledger_fresh d : idsBelowNext d → ledger d (nextId d) = [].
Proof.
  intros [Hv _]. unfold ledger, findAllVersions.
  destruct (filter _ _) as [|v l] eqn:E; [done|].
  assert (v ∈ filter (λ v, documentId v = nextId d) (document_versions d))
    as Hin by (rewrite E; left).
  apply list_elem_of_filter in Hin as [Heq Hin]. apply Hv in Hin. lia.
Qed.

Lemma idsBelowNext_created d doc u :
  idsBelowNext d → idsBelowNext (created d doc u).
Proof.
  intros [Hv Hd]. split; simpl.
  - intros v. rewrite elem_of_app. intros [Hin|Hin].
    + apply Hv in Hin. lia.
    + apply list_elem_of_singleton in Hin as ->. simpl. lia.
  - intros id. destruct (decide (nextId d = id)) as [<-|Hne]; [lia|].
    rewrite lookup_insert_ne by done. intros H. apply Hd in H. lia.
Qed.

(** An operation either leaves the store alone or committed a write. *)
Lemma runOp_cases d op : (runOp d op).1 = d ∨ wrote d op = true.
Proof.
  destruct op as [rs u t rc | rs id u c | rs id i u | id c u e];
    unfold wrote; simpl.
  - unfold createRoute. destruct t as [[|a t]|]; simpl; auto.
  - unfold liveContent, updateRoute.
    destruct (findByPk d id) as [doc|] eqn:Hf; simpl; auto.
    destruct (denied rs doc u); simpl; auto.
    case_bool_decide as Hc; simpl; auto.
    right. rewrite bool_decide_eq_false_2; [done|congruence].
  - unfold revertRoute.
    destruct (findByPk d id) as [doc|]; simpl; auto.
    destruct (denied rs doc u); simpl; auto.
    destruct (indexOutOfRange _ _); simpl; auto.
    destruct (jsIndex _ _); simpl; auto.
  - unfold saveDocumentToDB.
    destruct (findByPk d id) as [doc|]; simpl; auto.
    destruct (hasAccess doc u); simpl; auto.
    case_bool_decide; simpl; auto.
Qed.

(** Every committed write is a creation or a pass through the shared
    block on an existing document. *)
Lemma wrote_shape d op :
  wrote d op = true →
  (∃ doc u, (runOp d op).1 = created d doc u ∧ currentVersion doc = 0
            ∧ target d op = nextId d ∧ contentChange op = None) ∨
  (∃ doc u c, findByPk d (target d op) = Some doc ∧
              (runOp d op).1 = install d (target d op) doc u c ∧
              (∀ c', contentChange op = Some (target d op, u, c') →
                     c' = c ∧ content doc ≠ c)).
Proof.
  intros Hw. destruct op as [rs u t rc | rs id u c | rs id i u | id c u e].
  - left. apply wrote_create in Hw as (doc & Hr & Hc).
    exists doc, u. done.
  - right. eapply wrote_change in Hw as (doc & Hf & Hc & Hr); [|done].
    exists doc, u, c. split_and!; try done. by intros c' [= ->].
  - right. apply wrote_revert in Hw as (doc & v & Hf & Hi & Hr).
    exists doc, u, (ver_content v). simpl. done.
  - right. eapply wrote_change in Hw as (doc & Hf & Hc & Hr); [|done].
    exists doc, u, c. split_and!; try done. by intros c' [= ->].
Qed.

Lemma reachable_inv d :
  reachable d → idsBelowNext d ∧ ∀ id, NoStutter (ledger d id).
Proof.
  induction 1 as [|d op Hr [Hids Hns]].
  - split; [split|].
    + intros v Hin. by apply elem_of_nil in Hin.
    + intros id [x Hx]. simpl in Hx. by rewrite lookup_empty in Hx.
    + intros id. apply NoStutter_nil.
  - destruct (runOp_cases d op) as [->|Hw]; [done|].
    apply wrote_shape in Hw
      as [(doc & u & -> & _) | (doc & u & c & Hf & -> & _)].
    + split; [by apply idsBelowNext_created|].
      intros id. rewrite ledger_created.
      destruct (decide (nextId d = id)) as [<-|Hne].
      * rewrite ledger_fresh by done. apply NoStutter_singleton.
      * rewrite app_nil_r. apply Hns.
    + split; [by apply idsBelowNext_install|].
      intros id. by apply NoStutter_install.
Qed.
End Ledger.

(** ** Version count *)

Lemma db_created_reachable : reachable db_created.
Proof. apply reach_step, reach_init. Qed.

Lemma db_edited_reachable : reachable db_edited.
Proof. apply reach_step, db_created_reachable. Qed.

Lemma db_reverted_reachable : reachable db_reverted.
Proof. apply reach_step, db_edited_reachable. Qed.

(** C1, as stated, fails at creation: the new document of [db_created] has
    [currentVersion] 0 while its ledger already holds the initial version. *)
Lemma versionCount_creation_counterexample :
  wrote emptyDB (OpCreate Guarded 7 (Some "notes") (Some "a")) = true ∧
  currentVersion <$> findByPk db_created 1 = Some 0 ∧
  countVersions db_created 1 = 1 ∧
  currentVersion <$> findByPk db_created 1 ≠ Some (countVersions db_created 1).
Proof. vm_compute. split_and!; try reflexivity. discriminate. Qed.

(** C1 (amended). After every applied content change (update route or
    [saveDocumentToDB]) and every revert that committed, the document's
    [currentVersion] is the number of rows of its ledger, read back by a
    recount. After a creation it is 0 although the ledger has gained the
    initial version. *)
Theorem versionCount_after_write d op :
  wrote d op = true →
  ∃ doc, findByPk (runOp d op).1 (target d op) = Some doc ∧
    match op with
    | OpCreate _ _ _ _ =>
        currentVersion doc = 0 ∧
        countVersions (runOp d op).1 (target d op)
        = S (countVersions d (target d op))
    | _ => currentVersion doc = countVersions (runOp d op).1 (target d op)
    end.
Proof.
  intros Hw. destruct op as [rs u t rc | rs id u c | rs id i u | id c u e].
  - apply wrote_create in Hw as (doc & -> & Hc). exists doc. simpl.
    split; [apply lookup_insert_eq|]. split; [done|].
    unfold countVersions. rewrite findAllVersions_createVersion; simpl.
    rewrite decide_True by done. rewrite length_app; simpl.
    unfold findAllVersions; simpl. lia.
  - eapply wrote_change in Hw as (doc & Hf & Hc & ->); [|done].
    eexists. split; [apply findByPk_install|done].
  - apply wrote_revert in Hw as (doc & v & Hf & Hi & ->).
    eexists. split; [apply findByPk_install|done].
  - eapply wrote_change in Hw as (doc & Hf & Hc & ->); [|done].
    eexists. split; [apply findByPk_install|done].
Qed.

Lemma versionCount_after_write_witness :
  wrote db_created (OpUpdate Guarded 1 7 "b") = true ∧
  ∃ doc, findByPk db_edited 1 = Some doc ∧
         currentVersion doc = countVersions db_edited 1.
Proof.
  split; [reflexivity|].
  apply (versionCount_after_write db_created (OpUpdate Guarded 1 7 "b")).
  reflexivity.
Defined.

(** ** Unchanged content *)

Lemma hasAccess_not_denied rs doc u :
  hasAccess doc u = true → denied rs doc u = false.
Proof. intros H. destruct rs; simpl; [by rewrite H|done]. Qed.

(** C3, as stated, fails for [saveDocumentToDB]: on unchanged content it
    returns nothing, not the document with its version count. *)
Lemma unchanged_save_counterexample :
  ∃ doc, findByPk db_created 1 = Some doc ∧ hasAccess doc 7 = true ∧
         content doc = "a" ∧
         (saveDocumentToDB db_created 1 "a" 7 true).2 = SaveUndefined ∧
         (saveDocumentToDB db_created 1 "a" 7 true).2
         ≠ SaveReturn doc (currentVersion doc).
Proof.
  eexists. split; [reflexivity|]. split_and!; try reflexivity. discriminate.
Qed.

(** C3 (amended). When the new content equals the stored content and the
    caller has access, nothing is written: the store (content, version
    count and ledger) is the one the call started from. The update route
    answers 200 with the unchanged document, which carries the existing
    version count; [saveDocumentToDB] completes without a value. *)
Theorem unchanged_content_noop rs d id u e doc :
  findByPk d id = Some doc → hasAccess doc u = true →
  updateRoute rs d id u (content doc) = (d, Json 200 (BDoc (Some doc))) ∧
  saveDocumentToDB d id (content doc) u e = (d, SaveUndefined).
Proof.
  intros Hf Ha. split.
  - apply updateRoute_unchanged; [done|]. by apply hasAccess_not_denied.
  - by apply saveDocumentToDB_unchanged.
Qed.

Lemma unchanged_content_noop_witness :
  updateRoute Guarded db_edited 1 7 "b"
  = (db_edited,
     Json 200 (BDoc (Some (mkDocument "notes" "b" 1 (Some 7%Z) [])))) ∧
  saveDocumentToDB db_edited 1 "b" 7 false = (db_edited, SaveUndefined).
Proof.
  apply (unchanged_content_noop Guarded db_edited 1 7 false
           (mkDocument "notes" "b" 1 (Some 7%Z) [])); reflexivity.
Defined.

(** ** Snapshot before write *)

(** C4. An applied content change (update route or [saveDocumentToDB])
    appends at most one version row: it carries the content that was live
    before the write, which differs from the new content, and the author's
    id; it is appended exactly when the ledger is empty or its newest row
    has another content. *)
Theorem snapshot_before_write d op id u c :
  contentChange op = Some (id, u, c) → wrote d op = true →
  ∃ doc, findByPk d id = Some doc ∧ content doc ≠ c ∧
    liveContent (runOp d op).1 id = Some c ∧
    document_versions (runOp d op).1 =
    document_versions d ++
      match findLastVersion d id with
      | None => [mkDocumentVersion id (content doc) u]
      | Some lastVersion =>
          if decide (ver_content lastVersion = content doc) then []
          else [mkDocumentVersion id (content doc) u]
      end.
Proof.
  intros Hop Hw. destruct (wrote_change d op id u c Hop Hw) as (doc & Hf & Hc & ->).
  exists doc. split_and!; try done.
  - unfold liveContent. by rewrite findByPk_install.
  - unfold install, saveDocument; simpl. rewrite versions_snapshot.
    f_equal. rewrite last_ledger.
    destruct (findLastVersion d id) as [v|].
    + destruct (decide (ver_content v = content doc)) as [E|E];
        destruct (decide _) as [L|L]; simpl in L; congruence.
    + destruct (decide _) as [L|L]; [discriminate L|done].
Qed.

Lemma snapshot_before_write_witness :
  ∃ doc, findByPk db_reverted 1 = Some doc ∧ content doc ≠ "c" ∧
    liveContent (runOp db_reverted (OpSave 1 "c" 7 false)).1 1 = Some "c" ∧
    document_versions (runOp db_reverted (OpSave 1 "c" 7 false)).1 =
    document_versions db_reverted ++
      match findLastVersion db_reverted 1 with
      | None => [mkDocumentVersion 1 (content doc) 7]
      | Some lastVersion =>
          if decide (ver_content lastVersion = content doc) then []
          else [mkDocumentVersion 1 (content doc) 7]
      end.
Proof.
  apply (snapshot_before_write db_reverted (OpSave 1 "c" 7 false) 1 7 "c");
    reflexivity.
Defined.

(** ** Revert *)

(** C6. A revert whose index is negative or at least the number of ledger
    rows leaves the store as it was; for an existing document and a caller
    who passes the access check the answer is 400, invalid version index. *)
Theorem revert_out_of_range rs d id i u :
  (i < 0 ∨ Z.of_nat (length (ledger d id)) ≤ i)%Z →
  (revertRoute rs d id (JsInt i) u).1 = d ∧
  ∀ doc, findByPk d id = Some doc → denied rs doc u = false →
    (revertRoute rs d id (JsInt i) u).2
    = Json 400 (BMessage "Invalid version index").
Proof.
  intros Hi. rewrite length_ledger in Hi. unfold countVersions in Hi.
  assert (indexOutOfRange (JsInt i) (length (findAllVersions d id)) = true)
    as Hr.
  { unfold indexOutOfRange. apply orb_true_iff.
    destruct Hi; [left|right]; by apply bool_decide_eq_true. }
  unfold revertRoute. split.
  - destruct (findByPk d id) as [doc|]; [|done].
    destruct (denied rs doc u); [done|]. by rewrite Hr.
  - intros doc -> ->. by rewrite Hr.
Qed.

Lemma revert_out_of_range_witness :
  (revertRoute Guarded db_reverted 1 (JsInt 2) 7).1 = db_reverted ∧
  ∀ doc, findByPk db_reverted 1 = Some doc → denied Guarded doc 7 = false →
    (revertRoute Guarded db_reverted 1 (JsInt 2) 7).2
    = Json 400 (BMessage "Invalid version index").
Proof.
  apply (revert_out_of_range Guarded db_reverted 1 2 7).
  right. vm_compute. discriminate.
Defined.

(** ** Deduplication *)

Lemma runOp_create rs d u a s rc :
  (runOp d (OpCreate rs u (Some (String a s)) rc)).1 =
  created d
    (mkDocument (String a s) (default "" rc) 0
       match rs with Guarded => Some u | Open => None end [])
    u.
Proof. reflexivity. Qed.

(** C2, as stated, fails in reachable states: right after a creation the
    only ledger entry is the live content, and a revert to a version that
    holds the live content leaves that content as the final entry too. *)
Lemma ledger_final_entry_counterexample :
  reachable db_created ∧
  ledger db_created 1 = ["a"] ∧ liveContent db_created 1 = Some "a" ∧
  reachable (runOp db_reverted (OpRevert Guarded 1 (JsInt 0) 7)).1 ∧
  ledger (runOp db_reverted (OpRevert Guarded 1 (JsInt 0) 7)).1 1
  = ["a"; "b"; "a"] ∧
  liveContent (runOp db_reverted (OpRevert Guarded 1 (JsInt 0) 7)).1 1
  = Some "a".
Proof.
  split; [apply db_created_reachable|].
  split; [reflexivity|]. split; [reflexivity|].
  split; [apply reach_step, db_reverted_reachable|].
  split; reflexivity.
Qed.

Lemma jsIndex_ledger d id i :
  jsIndex (ledger d id) i = ver_content <$> jsIndex (findAllVersions d id) i.
Proof.
  destruct i as [z|]; simpl; [|done].
  case_bool_decide; [|done]. unfold ledger. apply list_lookup_fmap.
Qed.

(** C2 (amended). In every reachable state no ledger has two consecutive
    entries with the same content, and every operation leads to such a state
    again. After an applied content change the final entry is the content
    that was live before the write, so it differs from the live content.
    After a revert the final entry is the content that was live before the
    revert; it differs from the live content exactly when the version
    reverted to has another content than the one that was live. After a
    creation the final entry is the initial version, which holds the live
    content. *)
Theorem ledger_dedup_reachable d :
  reachable d →
  (∀ id, NoStutter (ledger d id)) ∧
  (∀ op id, NoStutter (ledger (runOp d op).1 id)) ∧
  (∀ op id u c, contentChange op = Some (id, u, c) → wrote d op = true →
     list.last (ledger (runOp d op).1 id) = liveContent d id ∧
     liveContent (runOp d op).1 id = Some c ∧
     list.last (ledger (runOp d op).1 id) ≠ liveContent (runOp d op).1 id) ∧
  (∀ rs id i u, wrote d (OpRevert rs id i u) = true →
     list.last (ledger (runOp d (OpRevert rs id i u)).1 id)
     = liveContent d id ∧
     liveContent (runOp d (OpRevert rs id i u)).1 id
     = jsIndex (ledger d id) i ∧
     (list.last (ledger (runOp d (OpRevert rs id i u)).1 id)
      ≠ liveContent (runOp d (OpRevert rs id i u)).1 id
      ↔ jsIndex (ledger d id) i ≠ liveContent d id)) ∧
  (∀ rs u t rc, wrote d (OpCreate rs u t rc) = true →
     ledger (runOp d (OpCreate rs u t rc)).1 (nextId d) = [default "" rc] ∧
     liveContent (runOp d (OpCreate rs u t rc)).1 (nextId d)
     = Some (default "" rc)).
Proof.
  intros Hr. split; [by apply reachable_inv|].
  split; [intros op id; by apply (reachable_inv _ (reach_step d op Hr))|].
  split; [|split].
  - intros op id u c Hop Hw.
    destruct (wrote_change d op id u c Hop Hw) as (doc & Hf & Hc & ->).
    rewrite last_ledger_install. unfold liveContent.
    rewrite findByPk_install, Hf. simpl. split_and!; try done. congruence.
  - intros rs id i u Hw.
    destruct (wrote_revert d rs id i u Hw) as (doc & v & Hf & Hi & ->).
    rewrite last_ledger_install, jsIndex_ledger, Hi. unfold liveContent.
    rewrite findByPk_install, Hf. simpl. split_and!; try done.
  - intros rs u t rc Hw.
    destruct t as [[|a t]|]; try discriminate Hw.
    rewrite runOp_create. split.
    + rewrite ledger_created, decide_True by done.
      rewrite ledger_fresh; [done|]. by apply reachable_inv.
    + unfold liveContent, findByPk. simpl. by rewrite lookup_insert_eq.
Qed.

Lemma ledger_dedup_reachable_witness :
  NoStutter (ledger db_reverted 1) ∧
  list.last (ledger (runOp db_reverted (OpUpdate Guarded 1 7 "c")).1 1)
  ≠ liveContent (runOp db_reverted (OpUpdate Guarded 1 7 "c")).1 1 ∧
  list.last (ledger (runOp db_reverted (OpRevert Guarded 1 (JsInt 1) 7)).1 1)
  ≠ liveContent (runOp db_reverted (OpRevert Guarded 1 (JsInt 1) 7)).1 1.
Proof.
  destruct (ledger_dedup_reachable db_reverted db_reverted_reachable)
    as (Hns & _ & Hch & Hrev & _).
  split; [apply Hns|]. split.
  - apply (Hch (OpUpdate Guarded 1 7 "c") 1%Z 7%Z "c"); reflexivity.
  - destruct (Hrev Guarded 1%Z (JsInt 1) 7%Z) as (_ & _ & Hiff);
      [reflexivity|].
    apply Hiff. vm_compute. discriminate.
Defined.

(** ** Round trip of reverts *)

(** C5, as stated, fails on a freshly created document: its ledger is
    ["a"] and the live content is "a"; reverting to version 0 and back
    keeps the content but appends no entry at all, not two. A revert to a
    version that holds the live content appends one entry over the round
    trip. *)
Lemma revert_round_trip_counterexample :
  let d1 := (revertRoute Guarded db_created 1 (JsInt 0) 7).1 in
  let d2 := (revertRoute Guarded d1 1 (JsInt 0) 7).1 in
  ledger db_created 1 = ["a"] ∧ liveContent db_created 1 = Some "a" ∧
  (revertRoute Guarded db_created 1 (JsInt 0) 7).2
  = Json 200 (BDoc (Some (mkDocument "notes" "a" 1 (Some 7%Z) []))) ∧
  liveContent d2 1 = Some "a" ∧
  length (ledger d2 1) = length (ledger db_created 1) ∧
  length (ledger d2 1) ≠ length (ledger db_created 1) + 2.
Proof. vm_compute. split_and!; try reflexivity. discriminate. Qed.

Lemma lookup_ledger d id n :
  ledger d id !! n = ver_content <$> findAllVersions d id !! n.
Proof. unfold ledger. apply list_lookup_fmap. Qed.

(** C5 (amended). Reverting to version [i] and then to the last ledger
    entry, which holds the content that was live before the first revert,
    puts that content back. Each revert appends one entry unless the
    deduplication guard holds it back: the first when the newest entry
    already is the live content, the second when version [i] is the content
    that was live. Two entries are appended exactly when neither is the
    case. *)
Theorem revert_round_trip rs d id i u u' doc :
  findByPk d id = Some doc →
  denied rs doc u = false → denied rs doc u' = false →
  (0 ≤ i < Z.of_nat (length (ledger d id)))%Z →
  let d1 := (revertRoute rs d id (JsInt i) u).1 in
  let back := JsInt (Z.of_nat (length (ledger d1 id)) - 1) in
  let d2 := (revertRoute rs d1 id back u').1 in
  liveContent d1 id = ledger d id !! Z.to_nat i ∧
  jsIndex (ledger d1 id) back = Some (content doc) ∧
  liveContent d2 id = Some (content doc) ∧
  length (ledger d2 id) =
    length (ledger d id)
    + (if decide (list.last (ledger d id) = Some (content doc)) then 0 else 1)
    + (if decide (ledger d id !! Z.to_nat i = Some (content doc)) then 0
       else 1).
Proof.
  intros Hf Hd Hd' Hi d1 back d2.
  rewrite length_ledger in Hi. unfold countVersions in Hi.
  assert (indexOutOfRange (JsInt i) (length (findAllVersions d id)) = false)
    as Hr.
  { unfold indexOutOfRange. apply orb_false_iff.
    split; apply bool_decide_eq_false; lia. }
  destruct (jsIndex_in_range _ _ Hr) as (v & Hjs & Hv).
  assert (d1 = install d id doc u (ver_content v)) as Hd1.
  { unfold d1. by rewrite (revertRoute_applied rs d id (JsInt i) u doc v). }
  set (doc1 := installed d id doc u (ver_content v)).
  assert (findByPk d1 id = Some doc1) as Hf1
    by (rewrite Hd1; apply findByPk_install).
  assert (list.last (ledger d1 id) = Some (content doc)) as Hlast
    by (rewrite Hd1; apply last_ledger_install).
  assert (0 < length (ledger d1 id)) as Hpos.
  { destruct (ledger d1 id); [discriminate Hlast|simpl; lia]. }
  assert (indexOutOfRange back (length (findAllVersions d1 id)) = false)
    as Hr1.
  { unfold back, indexOutOfRange. rewrite length_ledger in *.
    unfold countVersions in *. apply orb_false_iff.
    split; apply bool_decide_eq_false; lia. }
  destruct (jsIndex_in_range _ _ Hr1) as (v1 & Hjs1 & Hv1).
  assert (Z.to_nat (Z.of_nat (length (ledger d1 id)) - 1)
          = Init.Nat.pred (length (ledger d1 id))) as Hidx by lia.
  assert (ver_content v1 = content doc) as Hc1.
  { rewrite last_lookup, lookup_ledger, <- Hidx, Hv1 in Hlast.
    by injection Hlast. }
  assert (denied rs doc1 u' = false) as Hd1' by (destruct rs; exact Hd').
  assert (d2 = install d1 id doc1 u' (ver_content v1)) as Hd2.
  { unfold d2. by rewrite (revertRoute_applied rs d1 id back u' doc1 v1). }
  split_and!.
  - rewrite lookup_ledger, Hv. unfold liveContent. by rewrite Hf1.
  - unfold back, jsIndex. rewrite bool_decide_eq_true_2 by lia.
    rewrite lookup_ledger, Hv1. simpl. by rewrite Hc1.
  - unfold liveContent. rewrite Hd2, findByPk_install. simpl. by rewrite Hc1.
  - rewrite Hd2, ledger_install, Hlast, length_app.
    rewrite Hd1, ledger_install, length_app.
    rewrite lookup_ledger, Hv. simpl.
    destruct (decide (list.last (ledger d id) = Some (content doc)));
      destruct (decide (Some (content doc) = Some (ver_content v)));
      destruct (decide (Some (ver_content v) = Some (content doc)));
      simpl; try lia; congruence.
Qed.

Lemma revert_round_trip_witness :
  let d1 := (revertRoute Guarded db_edited 1 (JsInt 0) 7).1 in
  let back := JsInt (Z.of_nat (length (ledger d1 1)) - 1) in
  let d2 := (revertRoute Guarded d1 1 back 7).1 in
  liveContent d1 1 = ledger db_edited 1 !! Z.to_nat 0 ∧
  jsIndex (ledger d1 1) back = Some "b" ∧
  liveContent d2 1 = Some "b" ∧
  length (ledger d2 1) =
    length (ledger db_edited 1)
    + (if decide (list.last (ledger db_edited 1) = Some "b") then 0 else 1)
    + (if decide (ledger db_edited 1 !! Z.to_nat 0 = Some "b") then 0
       else 1).
Proof.
  apply (revert_round_trip Guarded db_edited 1 0 7 7
           (mkDocument "notes" "b" 1 (Some 7%Z) []));
    try reflexivity.
  vm_compute. split; [discriminate|reflexivity].
Defined.

(** ** Access *)

(** C7, as stated, fails on the public route set, which has no access
    check: user 9, neither owner nor collaborator of document 1, updates
    and reverts it, and the ledger grows. It also fails for the socket
    events: the edit of user 9 is relayed to both sockets of the room and an
    auto-save timeout is armed; when that runs, the save is refused, nothing
    is sent to the socket of user 9, and the error that is logged, the one
    [saveDocumentToDB] ends with, is not "Access denied". *)
Lemma open_routes_counterexample :
  ∃ doc, findByPk db_edited 1 = Some doc ∧ hasAccess doc 9 = false ∧
    (updateRoute Open db_edited 1 9 "x").2
    = Json 200 (BDoc (Some (mkDocument "notes" "x" 2 (Some 7%Z) []))) ∧
    ledger (updateRoute Open db_edited 1 9 "x").1 1 = ["a"; "b"] ∧
    ledger db_edited 1 = ["a"] ∧
    (revertRoute Open db_edited 1 (JsInt 0) 9).2
    = Json 200 (BDoc (Some (mkDocument "notes" "a" 2 (Some 7%Z) []))) ∧
    ledger (revertRoute Open db_edited 1 (JsInt 0) 9).1 1 = ["a"; "b"] ∧
    (sid tabA, EDocumentUpdate "x" 9 0 0)
    ∈ sent two_tabs (on_document_change two_tabs stranger 1 "x" 0) ∧
    (sid tabB, EDocumentUpdate "x" 9 0 0)
    ∈ sent two_tabs (on_document_change two_tabs stranger 1 "x" 0) ∧
    (λ σ, (filter (λ m, m.1 = sid stranger) (sent two_tabs σ), console σ))
      <$> run two_tabs [AChange stranger 1 "x" 0; ATick 2000; AFire 0]
    = Some ([], [LogAutoSaveError rollbackFinished]) ∧
    (saveDocumentToDB db_edited 1 "x" 9 true).2 ≠ SaveThrow "Access denied".
Proof.
  assert (sent two_tabs (on_document_change two_tabs stranger 1 "x" 0)
          = [(sid tabB, EDocumentUpdate "x" 9 0 0);
             (sid tabA, EDocumentUpdate "x" 9 0 0)]) as Hsent
    by (vm_compute; reflexivity).
  eexists. split; [reflexivity|]. split_and!; try reflexivity.
  - rewrite Hsent. apply elem_of_cons. right. apply elem_of_cons. by left.
  - rewrite Hsent. apply elem_of_cons. by left.
  - vm_compute. discriminate.
Qed.

Lemma hasAccess_iff doc u :
  hasAccess doc u = true ↔ ownerId doc = Some u ∨ u ∈ collaborators doc.
Proof.
  unfold hasAccess. rewrite orb_true_iff, !bool_decide_eq_true. done.
Qed.

Lemma timer_fire_denied σ h t doc :
  timeouts σ !! h = Some t → deadline t ≤ clock σ →
  findByPk (db σ) (to_document t) = Some doc →
  hasAccess doc (to_user t) = false →
  ∃ σ', timer_fire σ h = Some σ' ∧ db σ' = db σ ∧
        documentRooms σ' = documentRooms σ ∧ ioRooms σ' = ioRooms σ ∧
        outbox σ' = outbox σ ∧
        console σ' = console σ ++ [LogAutoSaveError rollbackFinished].
Proof.
  intros Ht Hdl Hf Ha. unfold timer_fire. rewrite Ht.
  rewrite bool_decide_eq_true_2 by done. simpl.
  rewrite (saveDocumentToDB_denied _ _ _ _ _ doc) by done.
  eexists. split; [reflexivity|]. done.
Qed.

(** C7 (amended). For a user who is neither owner nor collaborator of an
    existing document: joining its room and the update and revert of the
    guarded route set are refused with "Access denied"; [saveDocumentToDB],
    behind the auto-save timer and the explicit save, ends in an error and
    writes nothing. None of them changes the store or the room membership.
    The [document-change] event itself makes no access test: the edit is
    relayed to the other sockets of the room and an auto-save timeout is
    armed, whose later save is the one that is refused. The access test
    holds exactly for the owner and the collaborators. The public route set
    makes no such test. *)
Theorem access_denied_guarded σ socket room doc c i e pos :
  findByPk (db σ) room = Some doc → hasAccess doc (userId socket) = false →
  on_join_document σ socket room
  = socket_emit σ socket (EError "Access denied" None) ∧
  updateRoute Guarded (db σ) room (userId socket) c
  = (db σ, Json 403 (BMessage "Access denied")) ∧
  revertRoute Guarded (db σ) room i (userId socket)
  = (db σ, Json 403 (BMessage "Access denied")) ∧
  (∃ m, saveDocumentToDB (db σ) room c (userId socket) e
        = (db σ, SaveThrow m)) ∧
  (∃ m, on_save_document σ socket room c
        = socket_emit
            (match autoSaveTimers σ !! (room, userId socket) with
             | Some h =>
                 set_autoSaveTimers (clearTimeout σ h)
                   (delete (room, userId socket) (autoSaveTimers σ))
             | None => σ
             end)
            socket (EError "Failed to save document" (Some m))) ∧
  db (on_save_document σ socket room c) = db σ ∧
  documentRooms (on_save_document σ socket room c) = documentRooms σ ∧
  ioRooms (on_save_document σ socket room c) = ioRooms σ ∧
  (∀ h t, timeouts σ !! h = Some t → deadline t ≤ clock σ →
          timeout_key t = (room, userId socket) →
          ∃ σ', timer_fire σ h = Some σ' ∧ db σ' = db σ ∧
                documentRooms σ' = documentRooms σ ∧
                ioRooms σ' = ioRooms σ ∧ outbox σ' = outbox σ) ∧
  db (on_document_change σ socket room c pos) = db σ ∧
  documentRooms (on_document_change σ socket room c pos) = documentRooms σ ∧
  ioRooms (on_document_change σ socket room c pos) = ioRooms σ ∧
  sent σ (on_document_change σ socket room c pos)
  = ((λ s, (s, EDocumentUpdate c (userId socket) pos (clock σ)))
       <$> elements (ioRoom σ room ∖ {[sid socket]})) ∧
  timeouts (on_document_change σ socket room c pos) !! nextHandle σ
  = Some (mkTimeout (clock σ + 2000) room c (userId socket)) ∧
  (∀ doc' u, hasAccess doc' u = true
             ↔ ownerId doc' = Some u ∨ u ∈ collaborators doc').
Proof.
  intros Hf Ha.
  assert (on_save_document σ socket room c
          = socket_emit
              (match autoSaveTimers σ !! (room, userId socket) with
               | Some h =>
                   set_autoSaveTimers (clearTimeout σ h)
                     (delete (room, userId socket) (autoSaveTimers σ))
               | None => σ
               end)
              socket (EError "Failed to save document" (Some rollbackFinished)))
    as Hsave.
  { unfold on_save_document.
    destruct (autoSaveTimers σ !! (room, userId socket)) as [h|]; simpl;
      rewrite (saveDocumentToDB_denied _ _ _ _ _ doc) by done;
      by destruct σ. }
  split_and!.
  - unfold on_join_document. by rewrite Hf, Ha.
  - unfold updateRoute. rewrite Hf. simpl. by rewrite Ha.
  - unfold revertRoute. rewrite Hf. simpl. by rewrite Ha.
  - eexists. by apply (saveDocumentToDB_denied _ _ _ _ _ doc).
  - eexists. exact Hsave.
  - rewrite Hsave. by destruct (autoSaveTimers σ !! _).
  - rewrite Hsave. by destruct (autoSaveTimers σ !! _).
  - rewrite Hsave. by destruct (autoSaveTimers σ !! _).
  - intros h t Ht Hdl Hk. injection Hk as Hk1 Hk2.
    destruct (timer_fire_denied σ h t doc) as (σ' & ? & ? & ? & ? & ? & ?);
      rewrite ?Hk1, ?Hk2; try done.
    exists σ'. done.
  - unfold on_document_change. simpl.
    by destruct (autoSaveTimers σ !! (room, userId socket)).
  - unfold on_document_change. simpl.
    by destruct (autoSaveTimers σ !! (room, userId socket)).
  - unfold on_document_change. simpl.
    by destruct (autoSaveTimers σ !! (room, userId socket)).
  - unfold sent, on_document_change. simpl.
    destruct (autoSaveTimers σ !! (room, userId socket)); simpl;
      apply drop_app_length.
  - unfold on_document_change. simpl.
    destruct (autoSaveTimers σ !! (room, userId socket)); simpl;
      apply lookup_insert_eq.
  - apply hasAccess_iff.
Qed.

Lemma access_denied_guarded_witness :
  on_join_document two_tabs stranger 1
  = socket_emit two_tabs stranger (EError "Access denied" None) ∧
  updateRoute Guarded (db two_tabs) 1 (userId stranger) "x"
  = (db two_tabs, Json 403 (BMessage "Access denied")) ∧
  (∃ m, saveDocumentToDB (db two_tabs) 1 "x" (userId stranger) true
        = (db two_tabs, SaveThrow m)) ∧
  db (on_document_change two_tabs stranger 1 "x" 0) = db two_tabs.
Proof.
  destruct (access_denied_guarded two_tabs stranger 1
              (mkDocument "notes" "a" 0 (Some 7%Z) []) "x" (JsInt 0) true 0)
    as (Hj & Hu & _ & Hs & _ & _ & _ & _ & _ & Hc & _);
    [reflexivity|reflexivity|].
  split; [exact Hj|]. split; [exact Hu|]. split; [exact Hs|exact Hc].
Defined.

(** ** Explicit save of unchanged content *)

Lemma elem_of_deliver σ msgs m :
  m ∈ outbox (deliver σ msgs) ↔ m ∈ outbox σ ∨ m ∈ msgs.
Proof. simpl. apply elem_of_app. Qed.

(** C10. When an explicit save carries the stored content and the saver has
    access, [saveDocumentToDB] completes without a value and without
    writing, and the handler still sends [document-saved] to every socket of
    the room, the saver's included, with the version count the document
    already had. *)
Theorem explicit_save_unchanged σ socket room doc :
  findByPk (db σ) room = Some doc → hasAccess doc (userId socket) = true →
  saveDocumentToDB (db σ) room (content doc) (userId socket) true
  = (db σ, SaveUndefined) ∧
  db (on_save_document σ socket room (content doc)) = db σ ∧
  outbox (on_save_document σ socket room (content doc))
  = outbox σ ++
    ((λ s, (s, EDocumentSaved room (currentVersion doc)))
       <$> elements (ioRoom σ room)) ∧
  (∀ s, s ∈ ioRoom σ room →
        (s, EDocumentSaved room (currentVersion doc))
        ∈ outbox (on_save_document σ socket room (content doc))) ∧
  (sid socket ∈ ioRoom σ room →
        (sid socket, EDocumentSaved room (currentVersion doc))
        ∈ outbox (on_save_document σ socket room (content doc))).
Proof.
  intros Hf Ha.
  assert (outbox (on_save_document σ socket room (content doc))
          = outbox σ ++
            ((λ s, (s, EDocumentSaved room (currentVersion doc)))
               <$> elements (ioRoom σ room)) ∧
          db (on_save_document σ socket room (content doc)) = db σ)
    as [Hout Hdb].
  { unfold on_save_document.
    destruct (autoSaveTimers σ !! (room, userId socket)) as [h|]; simpl;
      rewrite (saveDocumentToDB_unchanged _ _ _ _ doc) by done; simpl;
      rewrite Hf; done. }
  assert (∀ s, s ∈ ioRoom σ room →
            (s, EDocumentSaved room (currentVersion doc))
            ∈ outbox (on_save_document σ socket room (content doc))) as Hall.
  { intros s Hs. rewrite Hout. apply elem_of_app. right.
    apply list_elem_of_fmap. exists s. split; [done|].
    by apply elem_of_elements. }
  split_and!; try done.
  - by apply saveDocumentToDB_unchanged.
  - apply Hall.
Qed.

Lemma explicit_save_unchanged_witness :
  db (on_save_document two_tabs tabA 1 "a") = db two_tabs ∧
  (sid tabA, EDocumentSaved 1 0) ∈ outbox (on_save_document two_tabs tabA 1 "a") ∧
  (sid tabB, EDocumentSaved 1 0) ∈ outbox (on_save_document two_tabs tabA 1 "a").
Proof.
  destruct (explicit_save_unchanged two_tabs tabA 1
              (mkDocument "notes" "a" 0 (Some 7%Z) []))
    as (_ & Hdb & _ & Hall & _); [reflexivity|reflexivity|].
  split; [exact Hdb|].
  split; apply Hall; vm_compute; reflexivity.
Defined.

(** ** Leaving a room *)

(** C9, as stated, fails with two tabs: user 7 is in the room of document 1
    through [tabA] and [tabB]. When [tabA] leaves (or disconnects), [tabB] is
    still connected to the room, yet user 7 is removed and the room entry is
    dropped. *)
Lemma second_tab_counterexample :
  documentRooms two_tabs !! 1%Z = Some {[7%Z]} ∧
  otherConnections (on_leave_document two_tabs tabA 1) [tabA; tabB] 1 tabA
  = [tabB] ∧
  documentRooms (on_leave_document two_tabs tabA 1) !! 1%Z = None ∧
  otherConnections (on_disconnect two_tabs tabA) [tabA; tabB] 1 tabA
  = [tabB] ∧
  documentRooms (on_disconnect two_tabs tabA) !! 1%Z = None.
Proof. vm_compute. split_and!; reflexivity. Qed.

Section Rooms.
Implicit Types (σ : Server) (socket : Socket) (room : Z) (users : gset Z).

Lemma size_zero_empty users : size users = 0 ↔ users = ∅.
Proof.
  split.
  - intros H. by apply leibniz_equiv, size_empty_iff.
  - intros ->. apply size_empty.
Qed.

Lemma ioRoom_socket_leave σ socket room :
  ioRoom (socket_leave σ socket room) room = ioRoom σ room ∖ {[sid socket]}.
Proof. unfold ioRoom, socket_leave; simpl. by rewrite lookup_insert_eq. Qed.

Lemma elem_of_socket_to_emit σ socket room e s :
  s ∈ ioRoom σ room → s ≠ sid socket →
  (s, e) ∈ outbox (socket_to_emit σ socket room e).
Proof.
  intros Hs Hne. unfold socket_to_emit. apply elem_of_deliver. right.
  apply list_elem_of_fmap. exists s. split; [done|].
  apply elem_of_elements. set_solver.
Qed.

Lemma outbox_socket_to_emit_mono σ socket room e m :
  m ∈ outbox σ → m ∈ outbox (socket_to_emit σ socket room e).
Proof. intros H. apply elem_of_deliver. by left. Qed.

(** The loop over the user's timers touches neither rooms nor messages. *)
Lemma clear_user_timers_frame (l : list (Z * Z * nat)) σ :
  documentRooms (clear_user_timers σ l) = documentRooms σ ∧
  ioRooms (clear_user_timers σ l) = ioRooms σ ∧
  outbox (clear_user_timers σ l) = outbox σ ∧
  db (clear_user_timers σ l) = db σ.
Proof.
  revert σ. induction l as [|kv l IH]; intros σ; [done|].
  specialize (IH (set_autoSaveTimers (clearTimeout σ kv.2)
                    (delete kv.1 (autoSaveTimers (clearTimeout σ kv.2))))).
  exact IH.
Qed.

(** The loop that announces the departure room by room. *)
Lemma announce_departure_spec (l : list (Z * gset Z)) σ socket :
  documentRooms (announce_departure σ socket l) = documentRooms σ ∧
  ioRooms (announce_departure σ socket l) = ioRooms σ ∧
  (∀ m, m ∈ outbox σ → m ∈ outbox (announce_departure σ socket l)) ∧
  (∀ r users s, (r, users) ∈ l → s ∈ ioRoom σ r → s ≠ sid socket →
                (s, EUserLeft (userId socket) r)
                ∈ outbox (announce_departure σ socket l)).
Proof.
  revert σ. induction l as [|kv l IH]; intros σ.
  - split_and!; try done. intros r users s Hin. by apply elem_of_nil in Hin.
  - destruct (IH (socket_to_emit σ socket kv.1
                    (EUserLeft (userId socket) kv.1)))
      as (Hr & Hi & Hmono & Hall).
    split_and!; [exact Hr|exact Hi| |].
    + intros m Hm. by apply Hmono, outbox_socket_to_emit_mono.
    + intros r users s Hin Hs Hne.
      apply elem_of_cons in Hin as [Heq|Hin].
      * subst kv. apply Hmono. simpl. by apply elem_of_socket_to_emit.
      * by apply (Hall r users s).
Qed.

Lemma ioRoom_without σ socket room :
  default ∅ (((λ s : gset nat, s ∖ {[sid socket]}) <$> ioRooms σ) !! room)
  = ioRoom σ room ∖ {[sid socket]}.
Proof.
  unfold ioRoom. rewrite lookup_fmap.
  destruct (ioRooms σ !! room); simpl; [done|].
  by rewrite difference_disjoint_L.
Qed.

Lemma disconnect_room_member u users :
  u ∈ users →
  disconnect_room u users
  = if decide (users ∖ {[u]} = ∅) then None else Some (users ∖ {[u]}).
Proof.
  intros Hu. unfold disconnect_room. rewrite bool_decide_eq_true_2 by done.
  destruct (decide (users ∖ {[u]} = ∅)) as [E|E].
  - rewrite bool_decide_eq_true_2; [done|]. by apply size_zero_empty.
  - rewrite bool_decide_eq_false_2; [done|]. by rewrite size_zero_empty.
Qed.
End Rooms.

(** C9 (amended). On [leave-document] the user's id is removed from the
    room's member set whatever other connections the user has: membership is
    a set of user ids and connections are not counted. On disconnect the
    same happens in every room the user is a member of. The other sockets
    of the room receive [user-left], and a member set that becomes empty is
    dropped with its room entry. *)
Theorem leave_and_disconnect σ socket room :
  (∀ users, documentRooms σ !! room = Some users →
     documentRooms (on_leave_document σ socket room) !! room
     = if decide (users ∖ {[userId socket]} = ∅) then None
       else Some (users ∖ {[userId socket]})) ∧
  (documentRooms σ !! room = None →
     documentRooms (on_leave_document σ socket room) !! room = None) ∧
  documentRooms (on_leave_document σ socket room) !! room ≠ Some ∅ ∧
  (∀ r, r ≠ room →
     documentRooms (on_leave_document σ socket room) !! r
     = documentRooms σ !! r) ∧
  (∀ s, s ∈ ioRoom σ room → s ≠ sid socket →
     (s, EUserLeft (userId socket) room)
     ∈ outbox (on_leave_document σ socket room)) ∧
  (∀ r users, documentRooms σ !! r = Some users → userId socket ∈ users →
     documentRooms (on_disconnect σ socket) !! r
     = if decide (users ∖ {[userId socket]} = ∅) then None
       else Some (users ∖ {[userId socket]})) ∧
  (∀ r users, documentRooms σ !! r = Some users → userId socket ∉ users →
     documentRooms (on_disconnect σ socket) !! r = Some users) ∧
  (∀ r users s, documentRooms σ !! r = Some users → userId socket ∈ users →
     s ∈ ioRoom σ r → s ≠ sid socket →
     (s, EUserLeft (userId socket) r) ∈ outbox (on_disconnect σ socket)).
Proof.
  assert (∀ users, documentRooms σ !! room = Some users →
     documentRooms (on_leave_document σ socket room) !! room
     = if decide (users ∖ {[userId socket]} = ∅) then None
       else Some (users ∖ {[userId socket]})) as Hleave.
  { intros users Hu. unfold on_leave_document. simpl. rewrite Hu.
    destruct (decide (users ∖ {[userId socket]} = ∅)) as [E|E].
    - rewrite bool_decide_eq_true_2 by (by apply size_zero_empty). simpl.
      apply lookup_delete_eq.
    - rewrite bool_decide_eq_false_2 by (by rewrite size_zero_empty). simpl.
      apply lookup_insert_eq. }
  assert (documentRooms σ !! room = None →
     documentRooms (on_leave_document σ socket room) !! room = None) as Hnone.
  { intros Hu. unfold on_leave_document. simpl. by rewrite Hu. }
  set (σ0 := set_ioRooms σ ((λ s, s ∖ {[sid socket]}) <$> ioRooms σ)).
  set (σ1 := clear_user_timers σ0
               (filter (λ kv, kv.1.2 = userId socket)
                  (map_to_list (autoSaveTimers σ0)))).
  set (left := filter (λ kv, userId socket ∈ kv.2)
                 (map_to_list (documentRooms σ1))).
  destruct (clear_user_timers_frame
              (filter (λ kv, kv.1.2 = userId socket)
                 (map_to_list (autoSaveTimers σ0))) σ0)
    as (Ht1 & Ht2 & _ & _).
  fold σ1 in Ht1, Ht2.
  destruct (announce_departure_spec left σ1 socket) as (He1 & He2 & _ & He4).
  assert (on_disconnect σ socket
          = set_documentRooms (announce_departure σ1 socket left)
              (omap (disconnect_room (userId socket))
                 (documentRooms (announce_departure σ1 socket left))))
    as Hon by reflexivity.
  assert (∀ r, documentRooms (on_disconnect σ socket) !! r
               = documentRooms σ !! r ≫= disconnect_room (userId socket))
    as Hdis.
  { intros r. rewrite Hon.
    change (documentRooms (set_documentRooms ?a ?b)) with b.
    by rewrite lookup_omap, He1, Ht1. }
  split_and!.
  - exact Hleave.
  - exact Hnone.
  - destruct (documentRooms σ !! room) as [users|] eqn:Hu.
    + rewrite (Hleave users) by done.
      destruct (decide _); [done|]. congruence.
    + by rewrite Hnone.
  - intros r Hne. unfold on_leave_document. simpl.
    destruct (documentRooms σ !! room) as [users|]; [|done].
    case_bool_decide; simpl.
    + by apply lookup_delete_ne.
    + by apply lookup_insert_ne.
  - intros s Hs Hne. unfold on_leave_document.
    apply elem_of_socket_to_emit; [|done].
    match goal with
    | |- s ∈ ioRoom ?x room =>
        assert (ioRoom x room = ioRoom (socket_leave σ socket room) room)
          as -> by (simpl; by destruct (documentRooms σ !! room);
                      [case_bool_decide|])
    end.
    rewrite ioRoom_socket_leave. set_solver.
  - intros r users Hu Hin. rewrite Hdis, Hu. simpl.
    by apply disconnect_room_member.
  - intros r users Hu Hin. rewrite Hdis, Hu. simpl.
    unfold disconnect_room. by rewrite bool_decide_eq_false_2.
  - intros r users s Hu Hin Hs Hne. rewrite Hon.
    change (outbox (set_documentRooms ?a ?b)) with (outbox a).
    apply (He4 r users s).
    + apply list_elem_of_filter. split; [done|].
      apply elem_of_map_to_list. by rewrite Ht1.
    + unfold ioRoom. rewrite Ht2. unfold σ0. simpl.
      rewrite ioRoom_without. set_solver.
    + done.
Qed.

Lemma leave_and_disconnect_witness :
  documentRooms (on_leave_document two_tabs tabB 1) !! 1%Z = None ∧
  (sid tabA, EUserLeft 7 1) ∈ outbox (on_leave_document two_tabs tabB 1).
Proof.
  destruct (leave_and_disconnect two_tabs tabB 1)
    as (Hl & _ & _ & _ & Hs & _).
  split.
  - rewrite (Hl {[7%Z]}) by reflexivity. reflexivity.
  - apply Hs; [vm_compute; reflexivity|discriminate].
Defined.

(** ** Debounced auto-save *)

Section Debounce.
Implicit Types (σ : Server) (socket : Socket) (room : Z) (c : string).

Lemma timeouts_on_document_change σ socket room c pos :
  timeouts (on_document_change σ socket room c pos)
  = <[nextHandle σ := mkTimeout (clock σ + 2000) room c (userId socket)]>
      (match autoSaveTimers σ !! (room, userId socket) with
       | Some h => delete h (timeouts σ)
       | None => timeouts σ
       end).
Proof.
  unfold on_document_change. simpl.
  by destruct (autoSaveTimers σ !! (room, userId socket)).
Qed.

Lemma autoSaveTimers_on_document_change σ socket room c pos :
  autoSaveTimers (on_document_change σ socket room c pos)
  = <[(room, userId socket) := nextHandle σ]> (autoSaveTimers σ).
Proof.
  unfold on_document_change. simpl.
  by destruct (autoSaveTimers σ !! (room, userId socket)).
Qed.

Lemma nextHandle_on_document_change σ socket room c pos :
  nextHandle (on_document_change σ socket room c pos) = S (nextHandle σ).
Proof.
  unfold on_document_change. simpl.
  by destruct (autoSaveTimers σ !! (room, userId socket)).
Qed.

Lemma store_on_document_change σ socket room c pos :
  db (on_document_change σ socket room c pos) = db σ ∧
  console (on_document_change σ socket room c pos) = console σ ∧
  clock (on_document_change σ socket room c pos) = clock σ ∧
  awaiting (on_document_change σ socket room c pos) = awaiting σ.
Proof.
  unfold on_document_change. simpl.
  by destruct (autoSaveTimers σ !! (room, userId socket)).
Qed.

(** Where no callback has dropped a later registration, an edit replaces
    the pending save of its pair: afterwards exactly one timeout is armed
    for the pair, it carries the content of this edit and is due 2000 ms
    later. *)
Lemma change_replaces_pending σ socket room c pos :
  registered σ (room, userId socket) → handles_fresh σ →
  timeouts (on_document_change σ socket room c pos) !! nextHandle σ
  = Some (mkTimeout (clock σ + 2000) room c (userId socket)) ∧
  (∀ h t, timeouts (on_document_change σ socket room c pos) !! h = Some t →
          timeout_key t = (room, userId socket) → h = nextHandle σ) ∧
  registered (on_document_change σ socket room c pos) (room, userId socket) ∧
  handles_fresh (on_document_change σ socket room c pos).
Proof.
  intros Hreg Hfresh.
  assert (∀ h t,
    timeouts (on_document_change σ socket room c pos) !! h = Some t →
    timeout_key t = (room, userId socket) → h = nextHandle σ) as Hone.
  { intros h t Ht Hk. rewrite timeouts_on_document_change in Ht.
    destruct (decide (nextHandle σ = h)) as [E|E]; [done|].
    rewrite lookup_insert_ne in Ht by done. exfalso.
    destruct (autoSaveTimers σ !! (room, userId socket)) as [h0|] eqn:Ha.
    - destruct (decide (h0 = h)) as [->|Hne].
      + by rewrite lookup_delete_eq in Ht.
      + rewrite lookup_delete_ne in Ht by done.
        specialize (Hreg h t Ht Hk). congruence.
    - specialize (Hreg h t Ht Hk). congruence. }
  split_and!.
  - rewrite timeouts_on_document_change. apply lookup_insert_eq.
  - exact Hone.
  - intros h t Ht Hk. rewrite (Hone h t Ht Hk).
    rewrite autoSaveTimers_on_document_change. apply lookup_insert_eq.
  - intros h [t Ht]. rewrite nextHandle_on_document_change.
    rewrite timeouts_on_document_change in Ht.
    destruct (decide (nextHandle σ = h)) as [<-|E]; [lia|].
    rewrite lookup_insert_ne in Ht by done.
    assert (is_Some (timeouts σ !! h)) as Hs.
    { destruct (autoSaveTimers σ !! (room, userId socket)) as [h0|].
      - destruct (decide (h0 = h)) as [->|Hne].
        + by rewrite lookup_delete_eq in Ht.
        + rewrite lookup_delete_ne in Ht by done. by exists t.
      - by exists t. }
    apply Hfresh in Hs. lia.
Qed.

(** The timeout armed by an edit cannot run before 2000 ms have passed. *)
Lemma pending_not_due σ socket room c pos dt :
  dt < 2000 →
  timer_fire (advance (on_document_change σ socket room c pos) dt)
    (nextHandle σ) = None.
Proof.
  intros Hdt. unfold timer_fire.
  change (timeouts (advance ?x dt)) with (timeouts x).
  change (clock (advance ?x dt)) with (clock x + dt).
  rewrite timeouts_on_document_change, lookup_insert_eq.
  destruct (store_on_document_change σ socket room c pos)
    as (_ & _ & Hc & _).
  rewrite Hc. cbn [deadline].
  rewrite bool_decide_eq_false_2; [done|lia].
Qed.

(** A burst writes nothing and leaves one pending save, with the content
    of its last edit. *)
Lemma burst_coalesces socket room (l : list Action) σ acc :
  registered σ (room, userId socket) → handles_fresh σ →
  Forall (in_burst socket room) l →
  (∀ c, acc = Some c → onePending σ (room, userId socket) c) →
  ∃ σ', run σ l = Some σ' ∧ db σ' = db σ ∧ console σ' = console σ ∧
        registered σ' (room, userId socket) ∧ handles_fresh σ' ∧
        ∀ c, lastEdit acc l = Some c →
             onePending σ' (room, userId socket) c.
Proof.
  revert σ acc. induction l as [|a l IH]; intros σ acc Hreg Hfresh Hl Hacc.
  - exists σ. done.
  - apply list.Forall_cons in Hl as [Ha Hl].
    destruct a as [dt | s r c pos | h | k]; simpl in Ha; try done.
    + destruct (IH (advance σ dt) acc) as (σ' & Hrun & Hdb & Hco & H');
        try done.
      exists σ'. done.
    + destruct Ha as [-> ->].
      destruct (change_replaces_pending σ socket room c pos Hreg Hfresh)
        as (Hnew & Hone & Hreg' & Hfresh').
      destruct (store_on_document_change σ socket room c pos)
        as (Hdb0 & Hco0 & _ & _).
      destruct (IH (on_document_change σ socket room c pos) (Some c))
        as (σ' & Hrun & Hdb & Hco & H'); try done.
      * intros c' [= <-]. exists (nextHandle σ). eexists.
        split; [exact Hnew|]. done.
      * exists σ'. simpl. rewrite Hdb, Hco, Hdb0, Hco0. done.
Qed.
End Debounce.

(** C8 fails on the code. While the auto-save of "A" waits for the store,
    the edit "B" arms a timeout and registers it; the callback of "A" then
    resumes and deletes the registration of the pair, so the edit "C", 90 ms
    after "B", finds nothing to clear and arms a second timeout. Both run:
    "B" and "C" are each written to the store. *)
Theorem debounce_race :
  awaiting <$> in_flight = Some [(1, 7)%Z] ∧
  (λ σ, (snd <$> pendingSaves σ (1, 7)%Z, clock σ)) <$> after_two_edits
  = Some ([mkTimeout 4100 1 "C" 7; mkTimeout 4010 1 "B" 7], 2100) ∧
  console <$> after_timers
  = Some [LogSaved 1 false 7 1; LogSaved 1 false 7 2; LogSaved 1 false 7 3] ∧
  (λ σ, ledger (db σ) 1) <$> after_timers = Some ["a"; "A"; "B"] ∧
  (λ σ, liveContent (db σ) 1) <$> after_timers = Some (Some "C").
Proof. vm_compute. split_and!; reflexivity. Qed.


(** * Further properties of the routes *)

Lemma versions_install d id doc u c :
  document_versions (install d id doc u c) =
  document_versions d ++
    (if decide (list.last (ledger d id) = Some (content doc)) then []
     else [mkDocumentVersion id (content doc) u]).
Proof. unfold install, saveDocument; simpl. apply versions_snapshot. Qed.

Lemma findByPk_install_ne d id doc u c id' :
  id ≠ id' → findByPk (install d id doc u c) id' = findByPk d id'.
Proof.
  intros Hne. unfold findByPk. rewrite documents_install.
  by apply lookup_insert_ne.
Qed.

Lemma findByPk_created d doc u id :
  findByPk (created d doc u) id
  = if decide (nextId d = id) then Some doc else findByPk d id.
Proof.
  unfold findByPk, created; simpl. destruct (decide (nextId d = id)) as [<-|E].
  - apply lookup_insert_eq.
  - by apply lookup_insert_ne.
Qed.

(** History is append-only: creation, update, revert and
    [saveDocumentToDB] never remove or rewrite a version row. Each call
    leaves the rows there were and adds at most one, so every document's
    ledger before the call is a prefix of its ledger after it. *)
Theorem history_append_only d op :
  (∃ l, document_versions (runOp d op).1 = document_versions d ++ l
        ∧ length l ≤ 1) ∧
  ∀ id, ledger d id `prefix_of` ledger (runOp d op).1 id.
Proof.
  assert (∃ l, document_versions (runOp d op).1 = document_versions d ++ l
               ∧ length l ≤ 1) as Happ.
  { destruct (runOp_cases d op) as [->|Hw].
    - exists []. rewrite app_nil_r. split; [done|simpl; lia].
    - apply wrote_shape in Hw
        as [(doc & u & -> & _) | (doc & u & c & Hf & -> & _)].
      + eexists. split; [reflexivity|]. simpl. lia.
      + rewrite versions_install. eexists. split; [reflexivity|].
        destruct (decide _); simpl; lia. }
  split; [exact Happ|].
  intros id. destruct Happ as (l & Hl & _).
  unfold ledger, findAllVersions. rewrite Hl, list.filter_app, fmap_app.
  by apply prefix_app_r.
Qed.

(** A write is local to its document: every other document keeps its row
    and its ledger. *)
Theorem write_frame d op id :
  id ≠ target d op →
  findByPk (runOp d op).1 id = findByPk d id ∧
  ledger (runOp d op).1 id = ledger d id.
Proof.
  intros Hne. destruct (runOp_cases d op) as [->|Hw]; [done|].
  apply wrote_shape in Hw
    as [(doc & u & -> & _ & Ht & _) | (doc & u & c & Hf & -> & _)].
  - rewrite Ht in Hne. rewrite findByPk_created, ledger_created.
    rewrite !decide_False by done. by rewrite app_nil_r.
  - split.
    + by apply findByPk_install_ne.
    + by apply ledger_install_ne.
Qed.

Lemma write_frame_witness :
  findByPk (runOp db_edited (OpCreate Guarded 9 (Some "other") None)).1 1
  = findByPk db_edited 1 ∧
  ledger (runOp db_edited (OpCreate Guarded 9 (Some "other") None)).1 1
  = ledger db_edited 1.
Proof.
  apply (write_frame db_edited (OpCreate Guarded 9 (Some "other") None) 1).
  vm_compute. discriminate.
Defined.

(** Writes never touch who may access a document: in a reachable store a
    document that exists still exists after any creation, update, revert or
    save, with the title, owner and collaborators it had, so the access
    check answers as before for every user. *)
Theorem writes_keep_metadata d op id doc :
  reachable d → findByPk d id = Some doc →
  ∃ doc', findByPk (runOp d op).1 id = Some doc' ∧
          title doc' = title doc ∧ ownerId doc' = ownerId doc ∧
          collaborators doc' = collaborators doc ∧
          ∀ u, hasAccess doc' u = hasAccess doc u.
Proof.
  intros Hr Hf. destruct (runOp_cases d op) as [->|Hw]; [by exists doc|].
  apply wrote_shape in Hw
    as [(doc0 & u & -> & _) | (doc0 & u & c & Hf0 & -> & _)].
  - exists doc. rewrite findByPk_created.
    destruct (decide (nextId d = id)) as [<-|E]; [|done].
    apply reachable_inv in Hr as [[_ Hd] _].
    assert (nextId d < nextId d)%Z by (apply Hd; by exists doc). lia.
  - destruct (decide (target d op = id)) as [E|E].
    + rewrite E in *. rewrite findByPk_install.
      assert (doc0 = doc) as -> by congruence.
      eexists. split; [reflexivity|]. done.
    + exists doc. by rewrite findByPk_install_ne.
Qed.

Lemma writes_keep_metadata_witness :
  ∃ doc', findByPk (runOp db_edited (OpRevert Guarded 1 (JsInt 0) 7)).1 1
          = Some doc' ∧
          title doc' = "notes" ∧ ownerId doc' = Some 7%Z ∧
          collaborators doc' = [] ∧
          ∀ u, hasAccess doc' u
               = hasAccess (mkDocument "notes" "b" 1 (Some 7%Z) []) u.
Proof.
  apply (writes_keep_metadata db_edited (OpRevert Guarded 1 (JsInt 0) 7) 1
           (mkDocument "notes" "b" 1 (Some 7%Z) []));
    [apply db_edited_reachable|reflexivity].
Defined.

(** In a reachable store no document claims more versions than its ledger
    holds. *)
Lemma currentVersion_le_count d :
  reachable d →
  ∀ id doc, findByPk d id = Some doc → currentVersion doc ≤ countVersions d id.
Proof.
  induction 1 as [|d op Hr IH]; intros id doc Hf.
  - unfold findByPk in Hf; simpl in Hf. by rewrite lookup_empty in Hf.
  - destruct (runOp_cases d op) as [E|Hw]; [rewrite E in *; by apply IH|].
    pose proof (history_append_only d op) as [_ Hpre].
    specialize (Hpre id). apply prefix_length in Hpre.
    rewrite !length_ledger in Hpre.
    apply wrote_shape in Hw
      as [(doc0 & u & E & Hc & _) | (doc0 & u & c & Hf0 & E & _)];
      rewrite E in *.
    + rewrite findByPk_created in Hf.
      destruct (decide (nextId d = id)) as [<-|Hne].
      * injection Hf as <-. lia.
      * specialize (IH id doc Hf). lia.
    + destruct (decide (target d op = id)) as [Ht|Ht].
      * rewrite Ht in *. rewrite findByPk_install in Hf.
        injection Hf as <-. by rewrite countVersions_install.
      * rewrite findByPk_install_ne in Hf by done.
        specialize (IH id doc Hf). lia.
Qed.

(** The version count of a document never goes down: along any creation,
    update, revert or save from a reachable store, [currentVersion] after
    the call is at least what it was. *)
Theorem versionCount_monotone d op id doc :
  reachable d → findByPk d id = Some doc →
  ∃ doc', findByPk (runOp d op).1 id = Some doc' ∧
          currentVersion doc ≤ currentVersion doc'.
Proof.
  intros Hr Hf. destruct (runOp_cases d op) as [->|Hw]; [by exists doc|].
  pose proof (currentVersion_le_count d Hr id doc Hf) as Hle.
  pose proof (history_append_only d op) as [_ Hpre].
  specialize (Hpre id). apply prefix_length in Hpre.
  rewrite !length_ledger in Hpre.
  destruct (writes_keep_metadata d op id doc Hr Hf) as (doc' & Hf' & _).
  exists doc'. split; [done|].
  apply wrote_shape in Hw
    as [(doc0 & u & E & Hc & _) | (doc0 & u & c & Hf0 & E & _)];
    rewrite E in *.
  - rewrite findByPk_created in Hf'.
    destruct (decide (nextId d = id)) as [<-|Hne]; [|by simplify_eq].
    apply reachable_inv in Hr as [[_ Hd] _].
    assert (nextId d < nextId d)%Z by (apply Hd; by exists doc). lia.
  - destruct (decide (target d op = id)) as [Ht|Ht].
    + rewrite Ht in *. rewrite findByPk_install in Hf'.
      injection Hf' as <-. rewrite <- countVersions_install. lia.
    + rewrite findByPk_install_ne in Hf' by done. by simplify_eq.
Qed.

Lemma versionCount_monotone_witness :
  ∃ doc', findByPk (runOp db_reverted (OpUpdate Guarded 1 7 "c")).1 1
          = Some doc' ∧ 2 ≤ currentVersion doc'.
Proof.
  apply (versionCount_monotone db_reverted (OpUpdate Guarded 1 7 "c") 1
           (mkDocument "notes" "a" 2 (Some 7%Z) []));
    [apply db_reverted_reachable|reflexivity].
Defined.

(** Saving the same content again changes nothing: after an update or a
    [saveDocumentToDB] with some content, whatever its outcome, repeating
    the call leaves the store as the first call left it. *)
Theorem content_change_idempotent d op :
  is_Some (contentChange op) →
  (runOp (runOp d op).1 op).1 = (runOp d op).1.
Proof.
  intros [[[id u] c] Hop].
  destruct (runOp_cases d op) as [E|Hw]; [by rewrite !E|].
  destruct op as [| rs id0 u0 c0 | | id0 c0 u0 e]; simpl in Hop; try done;
    injection Hop as -> -> ->.
  - unfold wrote in Hw; simpl in *. unfold updateRoute in *.
    destruct (findByPk d id) as [doc|] eqn:Hf; [|done].
    destruct (denied rs doc u) eqn:Hd; [done|].
    case_bool_decide as Hc; simpl in *.
    + by rewrite Hf, Hd, bool_decide_eq_true_2.
    + fold (snapshot d id doc u). fold (installed d id doc u c).
      fold (install d id doc u c). rewrite findByPk_install.
      change (denied rs (installed d id doc u c) u) with (denied rs doc u).
      rewrite Hd. simpl. by rewrite bool_decide_eq_true_2.
  - unfold wrote in Hw; simpl in *. unfold saveDocumentToDB in *.
    destruct (findByPk d id) as [doc|] eqn:Hf; [|done].
    destruct (hasAccess doc u) eqn:Hd; simpl in *; [|done].
    case_bool_decide as Hc; simpl in *; [done|].
    fold (snapshot d id doc u). fold (installed d id doc u c).
    fold (install d id doc u c). rewrite findByPk_install.
    change (hasAccess (installed d id doc u c) u) with (hasAccess doc u).
    rewrite Hd. simpl. by rewrite bool_decide_eq_true_2.
Qed.

Lemma content_change_idempotent_witness :
  (runOp (runOp db_edited (OpSave 1 "c" 7 false)).1 (OpSave 1 "c" 7 false)).1
  = (runOp db_edited (OpSave 1 "c" 7 false)).1.
Proof.
  apply (content_change_idempotent db_edited (OpSave 1 "c" 7 false)).
  by eexists.
Defined.

(** The socket path and the guarded HTTP path persist alike: for the same
    document, content and user, [saveDocumentToDB] and the guarded update
    route leave the same store, and [isExplicitSave] makes no difference
    to it. *)
Theorem save_matches_update d id c u e :
  (saveDocumentToDB d id c u e).1 = (updateRoute Guarded d id u c).1.
Proof.
  unfold saveDocumentToDB, updateRoute.
  destruct (findByPk d id) as [doc|]; [|done]. simpl.
  destruct (hasAccess doc u); simpl; [|done].
  by case_bool_decide.
Qed.

(** An applied update can be undone: reverting to the newest ledger entry
    brings back the content the update replaced, and the replaced-again
    content is kept as a new ledger entry. *)
Theorem update_undo rs d id u u' c doc :
  findByPk d id = Some doc →
  denied rs doc u = false → denied rs doc u' = false → content doc ≠ c →
  let d1 := (updateRoute rs d id u c).1 in
  let newest := JsInt (Z.of_nat (length (ledger d1 id)) - 1) in
  let d2 := (revertRoute rs d1 id newest u').1 in
  liveContent d1 id = Some c ∧
  liveContent d2 id = Some (content doc) ∧
  ledger d2 id = ledger d1 id ++ [c].
Proof.
  intros Hf Hd Hd' Hc d1 newest d2.
  assert (d1 = install d id doc u c) as Hd1.
  { unfold d1. by rewrite (updateRoute_applied rs d id u c doc). }
  set (doc1 := installed d id doc u c).
  assert (findByPk d1 id = Some doc1) as Hf1
    by (rewrite Hd1; apply findByPk_install).
  assert (list.last (ledger d1 id) = Some (content doc)) as Hlast
    by (rewrite Hd1; apply last_ledger_install).
  assert (0 < length (ledger d1 id)) as Hpos.
  { destruct (ledger d1 id); [discriminate Hlast|simpl; lia]. }
  assert (indexOutOfRange newest (length (findAllVersions d1 id)) = false)
    as Hr1.
  { unfold newest, indexOutOfRange. rewrite length_ledger in *.
    unfold countVersions in *. apply orb_false_iff.
    split; apply bool_decide_eq_false; lia. }
  destruct (jsIndex_in_range _ _ Hr1) as (v1 & Hjs1 & Hv1).
  assert (Z.to_nat (Z.of_nat (length (ledger d1 id)) - 1)
          = Init.Nat.pred (length (ledger d1 id))) as Hidx by lia.
  assert (ver_content v1 = content doc) as Hc1.
  { rewrite last_lookup, lookup_ledger, <- Hidx, Hv1 in Hlast.
    by injection Hlast. }
  assert (denied rs doc1 u' = false) as Hd1' by (destruct rs; exact Hd').
  assert (d2 = install d1 id doc1 u' (ver_content v1)) as Hd2.
  { unfold d2. by rewrite (revertRoute_applied rs d1 id newest u' doc1 v1). }
  split_and!.
  - unfold liveContent. by rewrite Hf1.
  - unfold liveContent. rewrite Hd2, findByPk_install. simpl. by rewrite Hc1.
  - rewrite Hd2, ledger_install, Hlast. simpl.
    rewrite decide_False; [done|]. congruence.
Qed.

Lemma update_undo_witness :
  let d1 := (updateRoute Guarded db_created 1 7 "b").1 in
  let newest := JsInt (Z.of_nat (length (ledger d1 1)) - 1) in
  let d2 := (revertRoute Guarded d1 1 newest 7).1 in
  liveContent d1 1 = Some "b" ∧ liveContent d2 1 = Some "a" ∧
  ledger d2 1 = ledger d1 1 ++ ["b"].
Proof.
  apply (update_undo Guarded db_created 1 7 7 "b"
           (mkDocument "notes" "a" 0 (Some 7%Z) []));
    try reflexivity.
  discriminate.
Defined.

(** A version index that does not parse passes the bounds test, because
    every comparison with NaN is false. The read of the missing version then
    fails, the transaction is rolled back and the answer is 500: the store is
    as before, without the snapshot the handler had already created. *)
Theorem revert_nan rs d id u :
  (revertRoute rs d id JsNaN u).1 = d ∧
  ∀ doc, findByPk d id = Some doc → denied rs doc u = false →
         (revertRoute rs d id JsNaN u).2 = Json 500 (BMessage "Server error").
Proof.
  unfold revertRoute. split.
  - destruct (findByPk d id) as [doc|]; [|done]. by destruct (denied rs doc u).
  - by intros doc -> ->.
Qed.

(** ** Listing and deleting *)

(** The indices revert accepts are the positions of the list the versions
    route returns: an index inside the list installs the content of the
    version listed there, an index outside is refused with 400 and nothing
    changes. *)
Theorem revert_follows_listing rs d id u l i :
  versionsRoute rs d id u = VersionsJson l →
  (∀ v, (0 ≤ i)%Z → l !! Z.to_nat i = Some v →
        ∃ doc', (revertRoute rs d id (JsInt i) u).2
                = Json 200 (BDoc (Some doc'))
                ∧ content doc' = ver_content v
                ∧ liveContent (revertRoute rs d id (JsInt i) u).1 id
                  = Some (ver_content v)) ∧
  ((i < 0 ∨ Z.of_nat (length l) ≤ i)%Z →
   revertRoute rs d id (JsInt i) u
   = (d, Json 400 (BMessage "Invalid version index"))).
Proof.
  unfold versionsRoute.
  destruct (findByPk d id) as [doc|] eqn:Hf; [|done].
  destruct (denied rs doc u) eqn:Hd; [done|]. intros [= <-]. split.
  - intros v Hi Hv.
    assert (indexOutOfRange (JsInt i) (length (findAllVersions d id)) = false)
      as Hr.
    { apply lookup_lt_Some in Hv. unfold indexOutOfRange.
      apply orb_false_iff. split; apply bool_decide_eq_false; lia. }
    assert (jsIndex (findAllVersions d id) (JsInt i) = Some v) as Hjs.
    { unfold jsIndex. by rewrite bool_decide_eq_true_2. }
    rewrite (revertRoute_applied rs d id (JsInt i) u doc v) by done.
    eexists. split; [reflexivity|]. split; [done|].
    unfold liveContent. simpl. by rewrite findByPk_install.
  - intros Hi. unfold revertRoute. rewrite Hf, Hd.
    assert (indexOutOfRange (JsInt i) (length (findAllVersions d id)) = true)
      as ->; [|done].
    unfold indexOutOfRange. apply orb_true_iff.
    destruct Hi; [left|right]; by apply bool_decide_eq_true.
Qed.

Lemma revert_follows_listing_witness :
  (∀ v, (0 ≤ 1)%Z →
        [mkDocumentVersion 1 "a" 7; mkDocumentVersion 1 "b" 7]
          !! Z.to_nat 1 = Some v →
        ∃ doc', (revertRoute Guarded db_reverted 1 (JsInt 1) 7).2
                = Json 200 (BDoc (Some doc'))
                ∧ content doc' = ver_content v
                ∧ liveContent (revertRoute Guarded db_reverted 1 (JsInt 1) 7).1 1
                  = Some (ver_content v)) ∧
  ((1 < 0 ∨ Z.of_nat 2 ≤ 1)%Z →
   revertRoute Guarded db_reverted 1 (JsInt 1) 7
   = (db_reverted, Json 400 (BMessage "Invalid version index"))).
Proof.
  apply (revert_follows_listing Guarded db_reverted 1 7
           [mkDocumentVersion 1 "a" 7; mkDocumentVersion 1 "b" 7] 1).
  reflexivity.
Defined.

Lemma revert_nan_witness :
  (revertRoute Guarded db_reverted 1 JsNaN 7).1 = db_reverted ∧
  (revertRoute Guarded db_reverted 1 JsNaN 7).2
  = Json 500 (BMessage "Server error").
Proof.
  destruct (revert_nan Guarded db_reverted 1 7) as [H1 H2].
  split; [exact H1|].
  apply (H2 (mkDocument "notes" "a" 2 (Some 7%Z) [])); reflexivity.
Defined.

Lemma ledger_destroyDocument d id id' :
  ledger (destroyDocument d id) id'
  = if decide (id = id') then [] else ledger d id'.
Proof.
  unfold ledger, findAllVersions, destroyDocument; simpl.
  destruct (decide (id = id')) as [<-|Hne].
  - induction (document_versions d) as [|v l IH]; [done|].
    rewrite filter_cons. destruct (decide (documentId v ≠ id)) as [E|E].
    + rewrite filter_cons_False by done. exact IH.
    + exact IH.
  - f_equal. induction (document_versions d) as [|v l IH]; [done|].
    rewrite !filter_cons.
    destruct (decide (documentId v ≠ id)) as [E|E];
      destruct (decide (documentId v = id')) as [E'|E'].
    + rewrite filter_cons_True by done. by f_equal.
    + by rewrite filter_cons_False.
    + apply dec_stable in E. congruence.
    + exact IH.
Qed.

Lemma findByPk_destroyDocument d id id' :
  findByPk (destroyDocument d id) id'
  = if decide (id = id') then None else findByPk d id'.
Proof.
  unfold findByPk, destroyDocument; simpl.
  destruct (decide (id = id')) as [<-|Hne].
  - apply lookup_delete_eq.
  - by apply lookup_delete_ne.
Qed.

(** A deletion that answers 200 removes the document and every version of
    it and nothing else; afterwards update, revert, the versions listing
    and a second deletion answer 404, document not found, and
    [saveDocumentToDB] throws (the error of its second rollback) without
    writing. In the guarded route set only the owner gets that far. *)
Theorem delete_removes rs d id u :
  (deleteRoute rs d id u).2
  = Json 200 (BMessage "Document deleted successfully") →
  findByPk (deleteRoute rs d id u).1 id = None ∧
  ledger (deleteRoute rs d id u).1 id = [] ∧
  (∀ id', id' ≠ id →
     findByPk (deleteRoute rs d id u).1 id' = findByPk d id' ∧
     ledger (deleteRoute rs d id u).1 id' = ledger d id') ∧
  (∀ rs' u' c i e,
     updateRoute rs' (deleteRoute rs d id u).1 id u' c
     = ((deleteRoute rs d id u).1, Json 404 (BMessage "Document not found")) ∧
     revertRoute rs' (deleteRoute rs d id u).1 id i u'
     = ((deleteRoute rs d id u).1, Json 404 (BMessage "Document not found")) ∧
     (∃ m, saveDocumentToDB (deleteRoute rs d id u).1 id c u' e
           = ((deleteRoute rs d id u).1, SaveThrow m)
           ∧ m ≠ "Document not found") ∧
     versionsRoute rs' (deleteRoute rs d id u).1 id u'
     = VersionsError 404 "Document not found" ∧
     deleteRoute rs' (deleteRoute rs d id u).1 id u'
     = ((deleteRoute rs d id u).1, Json 404 (BMessage "Document not found"))) ∧
  (rs = Guarded → ∃ doc, findByPk d id = Some doc ∧ ownerId doc = Some u).
Proof.
  unfold deleteRoute at 1.
  destruct (findByPk d id) as [doc|] eqn:Hf; [|done].
  destruct (match rs with
            | Guarded => negb (bool_decide (ownerId doc = Some u))
            | Open => false
            end) eqn:Hown; [done|]. intros _.
  assert ((deleteRoute rs d id u).1 = destroyDocument d id) as ->.
  { unfold deleteRoute. by rewrite Hf, Hown. }
  assert (findByPk (destroyDocument d id) id = None) as Hgone.
  { rewrite findByPk_destroyDocument. by rewrite decide_True. }
  split_and!.
  - exact Hgone.
  - rewrite ledger_destroyDocument. by rewrite decide_True.
  - intros id' Hne.
    rewrite findByPk_destroyDocument, ledger_destroyDocument.
    by rewrite !decide_False by done.
  - intros rs' u' c i e.
    unfold updateRoute, revertRoute, saveDocumentToDB, versionsRoute,
      deleteRoute.
    rewrite Hgone. split_and!; try done.
    exists rollbackFinished. split; [done|]. discriminate.
  - intros ->. exists doc. split; [done|].
    apply negb_false_iff in Hown. by apply bool_decide_eq_true in Hown.
Qed.

Lemma delete_removes_witness :
  findByPk (deleteRoute Guarded db_reverted 1 7).1 1 = None ∧
  ledger (deleteRoute Guarded db_reverted 1 7).1 1 = [] ∧
  (Guarded = Guarded →
   ∃ doc, findByPk db_reverted 1 = Some doc ∧ ownerId doc = Some 7%Z).
Proof.
  destruct (delete_removes Guarded db_reverted 1 7) as (H1 & H2 & _ & _ & H5);
    [reflexivity|].
  split; [exact H1|]. split; [exact H2|exact H5].
Defined.

(** In the guarded route set a collaborator may edit a document but not
    delete it: for a user who is a collaborator and not the owner, update
    with new content is applied while deletion is refused with 403 and
    changes nothing. *)
Theorem collaborator_edits_not_deletes d id u doc c :
  findByPk d id = Some doc → u ∈ collaborators doc →
  ownerId doc ≠ Some u → content doc ≠ c →
  deleteRoute Guarded d id u
  = (d, Json 403 (BMessage "Only the owner can delete this document")) ∧
  (updateRoute Guarded d id u c).2
  = Json 200 (BDoc (Some (installed d id doc u c))) ∧
  liveContent (updateRoute Guarded d id u c).1 id = Some c.
Proof.
  intros Hf Hin Hown Hc.
  assert (denied Guarded doc u = false) as Hd.
  { apply hasAccess_not_denied, hasAccess_iff. by right. }
  split_and!.
  - unfold deleteRoute. rewrite Hf.
    by rewrite bool_decide_eq_false_2 by done.
  - by rewrite (updateRoute_applied Guarded d id u c doc).
  - rewrite (updateRoute_applied Guarded d id u c doc) by done.
    unfold liveContent. simpl. by rewrite findByPk_install.
Qed.

Lemma collaborator_edits_not_deletes_witness :
  let d := saveDocument db_created 1 (mkDocument "notes" "a" 0 (Some 7%Z) [9%Z])
  in
  deleteRoute Guarded d 1 9
  = (d, Json 403 (BMessage "Only the owner can delete this document")) ∧
  (updateRoute Guarded d 1 9 "z").2
  = Json 200
      (BDoc (Some (installed d 1 (mkDocument "notes" "a" 0 (Some 7%Z) [9%Z])
                     9 "z"))) ∧
  liveContent (updateRoute Guarded d 1 9 "z").1 1 = Some "z".
Proof.
  apply (collaborator_edits_not_deletes
           (saveDocument db_created 1
              (mkDocument "notes" "a" 0 (Some 7%Z) [9%Z]))
           1 9 (mkDocument "notes" "a" 0 (Some 7%Z) [9%Z]) "z").
  - reflexivity.
  - set_solver.
  - discriminate.
  - discriminate.
Defined.

(** ** Creation *)

(** A document created through the public route set has neither owner nor
    collaborators. The access test of [saveDocumentToDB] therefore fails
    for every user: every save from a socket, automatic or explicit, throws
    (the error of the second rollback) and writes nothing. *)
Theorem public_document_never_saved d u a s rc :
  ∃ doc, findByPk (createRoute Open d u (Some (String a s)) rc).1 (nextId d)
         = Some doc ∧
         ownerId doc = None ∧ collaborators doc = [] ∧
         (∀ u', hasAccess doc u' = false) ∧
         ∃ m, m ≠ "Access denied" ∧
           ∀ u' c e,
             saveDocumentToDB (createRoute Open d u (Some (String a s)) rc).1
               (nextId d) c u' e
             = ((createRoute Open d u (Some (String a s)) rc).1,
                SaveThrow m).
Proof.
  eexists. split; [apply lookup_insert_eq|].
  assert (∀ u', hasAccess (mkDocument (String a s) (default "" rc) 0 None [])
                  u' = false) as Hno by done.
  split; [done|]. split; [done|]. split; [exact Hno|].
  exists rollbackFinished. split; [discriminate|]. intros u' c e.
  apply (saveDocumentToDB_denied _ _ _ _ _
           (mkDocument (String a s) (default "" rc) 0 None []));
    [apply lookup_insert_eq|apply Hno].
Qed.

(** ** Stores with deletions *)

Lemma store_inv_runOp d op :
  idsBelowNext d → (∀ id, NoStutter (ledger d id)) →
  idsBelowNext (runOp d op).1 ∧ ∀ id, NoStutter (ledger (runOp d op).1 id).
Proof.
  intros Hids Hns. destruct (runOp_cases d op) as [->|Hw]; [done|].
  apply wrote_shape in Hw
    as [(doc & u & -> & _) | (doc & u & c & Hf & -> & _)].
  - split; [by apply idsBelowNext_created|].
    intros id. rewrite ledger_created.
    destruct (decide (nextId d = id)) as [<-|Hne].
    + rewrite ledger_fresh by done. apply NoStutter_singleton.
    + rewrite app_nil_r. apply Hns.
  - split; [by apply idsBelowNext_install|].
    intros id. by apply NoStutter_install.
Qed.

Lemma store_inv_delete rs d id u :
  idsBelowNext d → (∀ id, NoStutter (ledger d id)) →
  idsBelowNext (deleteRoute rs d id u).1
  ∧ ∀ id', NoStutter (ledger (deleteRoute rs d id u).1 id').
Proof.
  intros [Hv Hd] Hns. unfold deleteRoute.
  destruct (findByPk d id) as [doc|]; [|done].
  destruct (match rs with
            | Guarded => negb (bool_decide (ownerId doc = Some u))
            | Open => false
            end); [done|]. simpl.
  split; [split|].
  - intros v Hin. simpl in Hin. apply list_elem_of_filter in Hin as [_ Hin].
    by apply Hv.
  - intros id' [x Hx]. simpl in Hx. apply Hd.
    destruct (decide (id = id')) as [<-|Hne].
    + by rewrite lookup_delete_eq in Hx.
    + rewrite lookup_delete_ne in Hx by done. by exists x.
  - intros id'. rewrite ledger_destroyDocument.
    destruct (decide (id = id')); [apply NoStutter_nil|apply Hns].
Qed.

Lemma runActs_inv l :
  idsBelowNext (runActs l) ∧ ∀ id, NoStutter (ledger (runActs l) id).
Proof.
  unfold runActs. induction l as [|a l IH] using rev_ind.
  - split; [split|].
    + intros v Hin. by apply elem_of_nil in Hin.
    + intros id [x Hx]. simpl in Hx. by rewrite lookup_empty in Hx.
    + intros id. apply NoStutter_nil.
  - rewrite foldl_app. simpl. destruct IH as [Hids Hns].
    destruct a as [op|rs id u]; simpl.
    + by apply store_inv_runOp.
    + by apply store_inv_delete.
Qed.

(** Ids are never reused and no ledger stutters, deletions included: after
    any list of creations, updates, reverts, saves and deletions, no ledger
    has two consecutive entries with the same content, and a document
    created next starts with a ledger of exactly its initial version, even
    when documents were deleted before. *)
Theorem fresh_document_after_deletions l rs u a s rc :
  (∀ id, NoStutter (ledger (runActs l) id)) ∧
  ledger (runActs l) (nextId (runActs l)) = [] ∧
  findByPk (runActs l) (nextId (runActs l)) = None ∧
  ledger (createRoute rs (runActs l) u (Some (String a s)) rc).1
    (nextId (runActs l))
  = [default "" rc].
Proof.
  destruct (runActs_inv l) as [Hids Hns].
  split_and!.
  - exact Hns.
  - by apply ledger_fresh.
  - destruct (findByPk (runActs l) (nextId (runActs l))) as [doc|] eqn:Hf;
      [|done].
    destruct Hids as [_ Hd].
    assert (nextId (runActs l) < nextId (runActs l))%Z
      by (apply Hd; by exists doc).
    lia.
  - change (ledger
              (created (runActs l)
                 (mkDocument (String a s) (default "" rc) 0
                    match rs with Guarded => Some u | Open => None end [])
                 u)
              (nextId (runActs l))
            = [default "" rc]).
    rewrite ledger_created, decide_True by done.
    by rewrite ledger_fresh.
Qed.


(** * Further properties of the socket server *)

Lemma gset_add_remove `{Countable K} (x : K) (A : gset K) :
  ({[x]} ∪ A) ∖ {[x]} = A ∖ {[x]}.
Proof.
  apply set_eq. intros y.
  rewrite !elem_of_difference, elem_of_union, elem_of_singleton. intuition.
Qed.

Lemma gset_remove_absent `{Countable K} (x : K) (A : gset K) :
  x ∉ A → A ∖ {[x]} = A.
Proof.
  intros Hx. apply set_eq. intros y.
  rewrite elem_of_difference, elem_of_singleton. intuition congruence.
Qed.

Lemma sent_deliver σ σ' msgs :
  outbox σ' = outbox σ ++ msgs → sent σ σ' = msgs.
Proof. intros H. unfold sent. rewrite H. apply drop_app_length. Qed.

Lemma on_join_document_granted σ socket room doc :
  findByPk (db σ) room = Some doc → hasAccess doc (userId socket) = true →
  db (on_join_document σ socket room) = db σ ∧
  documentRooms (on_join_document σ socket room)
  = <[room := {[userId socket]} ∪ default ∅ (documentRooms σ !! room)]>
      (documentRooms σ) ∧
  ioRooms (on_join_document σ socket room)
  = <[room := {[sid socket]} ∪ ioRoom σ room]> (ioRooms σ) ∧
  outbox (on_join_document σ socket room)
  = outbox σ ++
    (((λ s, (s, EUserJoined (userId socket) room))
        <$> elements (ioRoom σ room ∖ {[sid socket]}))
     ++ [(sid socket,
          EActiveUsers
            (elements ({[userId socket]}
                       ∪ default ∅ (documentRooms σ !! room))))]).
Proof.
  intros Hf Ha. unfold on_join_document. rewrite Hf, Ha. simpl.
  split_and!; try done.
  unfold socket_emit, socket_to_emit, deliver, ioRoom; simpl.
  rewrite !lookup_insert_eq. simpl. rewrite <- app_assoc. do 3 f_equal.
  f_equal. fold (ioRoom σ room). apply gset_add_remove.
Qed.

(** A user with access who joins becomes a member of the room. The store
    is not touched, the other sockets of the room each get [user-joined],
    the joining socket gets no [user-joined] but the [active-users] list,
    which contains the joining user. *)
Theorem join_success σ socket room doc :
  findByPk (db σ) room = Some doc → hasAccess doc (userId socket) = true →
  db (on_join_document σ socket room) = db σ ∧
  documentRooms (on_join_document σ socket room) !! room
  = Some ({[userId socket]} ∪ default ∅ (documentRooms σ !! room)) ∧
  (∀ r, r ≠ room →
        documentRooms (on_join_document σ socket room) !! r
        = documentRooms σ !! r) ∧
  ioRoom (on_join_document σ socket room) room
  = {[sid socket]} ∪ ioRoom σ room ∧
  (∀ s, s ∈ ioRoom σ room → s ≠ sid socket →
        (s, EUserJoined (userId socket) room)
        ∈ sent σ (on_join_document σ socket room)) ∧
  ((sid socket, EUserJoined (userId socket) room)
   ∉ sent σ (on_join_document σ socket room)) ∧
  ∃ users, (sid socket, EActiveUsers users)
           ∈ sent σ (on_join_document σ socket room)
           ∧ userId socket ∈ users.
Proof.
  intros Hf Ha.
  destruct (on_join_document_granted σ socket room doc Hf Ha)
    as (Hdb & Hrooms & Hio & Hout).
  rewrite (sent_deliver _ _ _ Hout).
  split_and!.
  - exact Hdb.
  - rewrite Hrooms. apply lookup_insert_eq.
  - intros r Hne. rewrite Hrooms. by apply lookup_insert_ne.
  - unfold ioRoom at 1. rewrite Hio. by rewrite lookup_insert_eq.
  - intros s Hs Hne. apply elem_of_app. left.
    apply list_elem_of_fmap. exists s. split; [done|].
    apply elem_of_elements. set_solver.
  - intros Hin. apply elem_of_app in Hin as [Hin|Hin].
    + apply list_elem_of_fmap in Hin as (s & [= <-] & Hs).
      apply elem_of_elements, elem_of_difference in Hs as [_ Hs].
      apply Hs. by apply elem_of_singleton.
    + apply list_elem_of_singleton in Hin. discriminate Hin.
  - eexists. split.
    + apply elem_of_app. right. apply list_elem_of_singleton. reflexivity.
    + apply elem_of_elements. set_solver.
Qed.

Lemma join_success_witness :
  db (on_join_document two_tabs tabB 1) = db two_tabs ∧
  documentRooms (on_join_document two_tabs tabB 1) !! 1%Z
  = Some ({[userId tabB]} ∪ default ∅ (documentRooms two_tabs !! 1%Z)).
Proof.
  destruct (join_success two_tabs tabB 1
              (mkDocument "notes" "a" 0 (Some 7%Z) []))
    as (H1 & H2 & _); [reflexivity|reflexivity|].
  split; [exact H1|exact H2].
Defined.

Lemma documentRooms_on_leave_document σ socket room :
  documentRooms (on_leave_document σ socket room)
  = match documentRooms σ !! room with
    | Some users =>
        if decide (users ∖ {[userId socket]} = ∅)
        then delete room (documentRooms σ)
        else <[room := users ∖ {[userId socket]}]> (documentRooms σ)
    | None => documentRooms σ
    end.
Proof.
  unfold on_leave_document. simpl.
  destruct (documentRooms σ !! room) as [users|]; [|done].
  destruct (decide (users ∖ {[userId socket]} = ∅)) as [E|E].
  - by rewrite bool_decide_eq_true_2 by (by apply size_zero_empty).
  - by rewrite bool_decide_eq_false_2 by (by rewrite size_zero_empty).
Qed.

(** Joining and leaving again is a round trip on the registry: if the user
    was not a member and the socket not in the room, the member sets and
    the socket's room are afterwards what they were. *)
Theorem join_leave_round_trip σ socket room doc :
  findByPk (db σ) room = Some doc → hasAccess doc (userId socket) = true →
  rooms_nonempty σ →
  userId socket ∉ default ∅ (documentRooms σ !! room) →
  sid socket ∉ ioRoom σ room →
  documentRooms (on_leave_document (on_join_document σ socket room) socket room)
  = documentRooms σ ∧
  ioRoom (on_leave_document (on_join_document σ socket room) socket room) room
  = ioRoom σ room.
Proof.
  intros Hf Ha Hne Hu Hs.
  destruct (on_join_document_granted σ socket room doc Hf Ha)
    as (_ & Hrooms & Hio & _).
  split.
  - rewrite documentRooms_on_leave_document, Hrooms, lookup_insert_eq.
    destruct (documentRooms σ !! room) as [users|] eqn:Hr; simpl in *.
    + assert (({[userId socket]} ∪ users) ∖ {[userId socket]} = users) as ->
        by (rewrite gset_add_remove; by apply gset_remove_absent).
      rewrite decide_False by (by apply (Hne room)).
      rewrite insert_insert_eq. by apply insert_id.
    + assert (({[userId socket]} ∪ ∅) ∖ {[userId socket]} = (∅ : gset Z))
        as -> by (rewrite gset_add_remove; by apply gset_remove_absent).
      rewrite decide_True by done. rewrite delete_insert_eq.
      by apply delete_id.
  - assert (ioRoom (on_leave_document (on_join_document σ socket room)
                      socket room) room
            = ioRoom (on_join_document σ socket room) room ∖ {[sid socket]})
      as ->.
    { unfold on_leave_document, socket_to_emit, deliver, ioRoom. simpl.
      destruct (documentRooms (on_join_document σ socket room) !! room);
        [case_bool_decide|]; simpl; by rewrite lookup_insert_eq. }
    unfold ioRoom at 1. rewrite Hio, lookup_insert_eq. simpl.
    rewrite gset_add_remove. by apply gset_remove_absent.
Qed.

Lemma join_leave_round_trip_witness :
  documentRooms
    (on_leave_document (on_join_document (initServer db_created) tabA 1)
       tabA 1)
  = documentRooms (initServer db_created) ∧
  ioRoom
    (on_leave_document (on_join_document (initServer db_created) tabA 1)
       tabA 1) 1
  = ioRoom (initServer db_created) 1.
Proof.
  apply (join_leave_round_trip (initServer db_created) tabA 1
           (mkDocument "notes" "a" 0 (Some 7%Z) [])).
  - reflexivity.
  - reflexivity.
  - intros room users H. simpl in H. by rewrite lookup_empty in H.
  - simpl. rewrite lookup_empty. simpl. set_solver.
  - unfold ioRoom. simpl. rewrite lookup_empty. simpl. set_solver.
Defined.

(** ** What the handlers leave alone *)

Lemma on_document_change_frame σ socket room c pos :
  documentRooms (on_document_change σ socket room c pos) = documentRooms σ ∧
  ioRooms (on_document_change σ socket room c pos) = ioRooms σ ∧
  outbox (on_document_change σ socket room c pos)
  = outbox σ ++
    ((λ s, (s, EDocumentUpdate c (userId socket) pos (clock σ)))
       <$> elements (ioRoom σ room ∖ {[sid socket]})).
Proof.
  unfold on_document_change. simpl.
  by destruct (autoSaveTimers σ !! (room, userId socket)).
Qed.

Lemma on_save_document_frame σ socket room c :
  documentRooms (on_save_document σ socket room c) = documentRooms σ ∧
  ioRooms (on_save_document σ socket room c) = ioRooms σ ∧
  db (on_save_document σ socket room c)
  = (saveDocumentToDB (db σ) room c (userId socket) true).1 ∧
  autoSaveTimers (on_save_document σ socket room c)
  = delete (room, userId socket) (autoSaveTimers σ) ∧
  timeouts (on_save_document σ socket room c)
  = match autoSaveTimers σ !! (room, userId socket) with
    | Some h => delete h (timeouts σ)
    | None => timeouts σ
    end.
Proof.
  unfold on_save_document.
  destruct (autoSaveTimers σ !! (room, userId socket)) as [h|] eqn:Hh; simpl;
    destruct (saveDocumentToDB (db σ) room c (userId socket) true)
      as [db' [m| |doc' n]];
    simpl; try destruct (findByPk db' room); simpl; split_and!; try done;
    symmetry; by apply delete_id.
Qed.

Lemma timer_fire_frame σ h σ' :
  timer_fire σ h = Some σ' →
  ∃ t, timeouts σ !! h = Some t ∧ deadline t ≤ clock σ ∧
       documentRooms σ' = documentRooms σ ∧ ioRooms σ' = ioRooms σ ∧
       outbox σ' = outbox σ ∧ autoSaveTimers σ' = autoSaveTimers σ ∧
       timeouts σ' = delete h (timeouts σ) ∧ clock σ' = clock σ ∧
       db σ' = (saveDocumentToDB (db σ) (to_document t) (to_content t)
                  (to_user t) false).1.
Proof.
  unfold timer_fire. destruct (timeouts σ !! h) as [t|]; [|done].
  case_bool_decide as Hdue; [|done]. simpl.
  destruct (saveDocumentToDB (db σ) (to_document t) (to_content t)
              (to_user t) false) as [db' [m| |doc' n]] eqn:Hs;
    intros [= <-]; exists t; simpl; rewrite ?Hs; done.
Qed.

Lemma documentRooms_on_disconnect σ socket :
  documentRooms (on_disconnect σ socket)
  = omap (disconnect_room (userId socket)) (documentRooms σ).
Proof.
  set (σ0 := set_ioRooms σ ((λ s, s ∖ {[sid socket]}) <$> ioRooms σ)).
  set (mine := filter (λ kv : Z * Z * nat, kv.1.2 = userId socket)
                 (map_to_list (autoSaveTimers σ0))).
  set (σ1 := clear_user_timers σ0 mine).
  set (left := filter (λ kv : Z * gset Z, userId socket ∈ kv.2)
                 (map_to_list (documentRooms σ1))).
  destruct (clear_user_timers_frame mine σ0) as (Ht1 & _).
  fold σ1 in Ht1.
  destruct (announce_departure_spec left σ1 socket) as (He1 & _).
  change (documentRooms (on_disconnect σ socket))
    with (omap (disconnect_room (userId socket))
            (documentRooms (announce_departure σ1 socket left))).
  by rewrite He1, Ht1.
Qed.

(** No handler leaves an empty member set behind: if every room entry has
    members, this still holds after a join, a leave, a disconnect, an edit,
    a cursor move, an explicit save and after an auto-save callback ran or
    resumed. *)
Theorem rooms_never_empty σ socket room c pos :
  rooms_nonempty σ →
  rooms_nonempty (on_join_document σ socket room) ∧
  rooms_nonempty (on_leave_document σ socket room) ∧
  rooms_nonempty (on_disconnect σ socket) ∧
  rooms_nonempty (on_document_change σ socket room c pos) ∧
  rooms_nonempty (on_cursor_position σ socket room pos) ∧
  rooms_nonempty (on_save_document σ socket room c) ∧
  (∀ h σ', timer_fire σ h = Some σ' → rooms_nonempty σ') ∧
  (∀ k σ', timer_resume σ k = Some σ' → rooms_nonempty σ').
Proof.
  intros Hne. split_and!.
  - unfold on_join_document.
    destruct (findByPk (db σ) room) as [doc|]; [|exact Hne].
    destruct (hasAccess doc (userId socket)); simpl; [|exact Hne].
    intros r users. simpl.
    destruct (decide (room = r)) as [<-|E].
    + rewrite lookup_insert_eq. intros [= <-] Hempty.
      assert (userId socket ∈ (∅ : gset Z)) as Hin
        by (rewrite <- Hempty; apply elem_of_union_l; by apply elem_of_singleton).
      by apply not_elem_of_empty in Hin.
    + rewrite lookup_insert_ne by done. apply Hne.
  - intros r users. rewrite documentRooms_on_leave_document.
    destruct (documentRooms σ !! room) as [us|] eqn:Hr; [|apply Hne].
    destruct (decide (us ∖ {[userId socket]} = ∅)) as [E|E].
    + destruct (decide (room = r)) as [<-|E'].
      * by rewrite lookup_delete_eq.
      * rewrite lookup_delete_ne by done. apply Hne.
    + destruct (decide (room = r)) as [<-|E'].
      * rewrite lookup_insert_eq. by intros [= <-].
      * rewrite lookup_insert_ne by done. apply Hne.
  - intros r users. rewrite documentRooms_on_disconnect, lookup_omap.
    destruct (documentRooms σ !! r) as [us|] eqn:Hr; simpl; [|done].
    unfold disconnect_room. case_bool_decide as Hin.
    + case_bool_decide as Hsz; [done|]. intros [= <-].
      by rewrite <- size_zero_empty.
    + intros [= <-]. by apply (Hne r).
  - intros r users.
    destruct (on_document_change_frame σ socket room c pos) as (-> & _).
    apply Hne.
  - exact Hne.
  - intros r users.
    destruct (on_save_document_frame σ socket room c) as (-> & _).
    apply Hne.
  - intros h σ' Hf r users.
    destruct (timer_fire_frame σ h σ' Hf) as (t & _ & _ & -> & _).
    apply Hne.
  - intros k σ'. unfold timer_resume. case_bool_decide; [|done].
    intros [= <-]. exact Hne.
Qed.

Lemma rooms_never_empty_witness :
  rooms_nonempty (on_leave_document two_tabs tabA 1) ∧
  rooms_nonempty (on_disconnect two_tabs tabB).
Proof.
  assert (rooms_nonempty two_tabs) as Hne.
  { assert (documentRooms two_tabs = {[1%Z := {[7%Z]}]}) as Hrooms
      by (vm_compute; reflexivity).
    intros r users Hl Hempty. rewrite Hrooms in Hl.
    apply lookup_singleton_Some in Hl as [_ <-].
    assert (7%Z ∈ (∅ : gset Z)) as Hin
      by (rewrite <- Hempty; by apply elem_of_singleton).
    by apply not_elem_of_empty in Hin. }
  destruct (rooms_never_empty two_tabs tabA 1 "" 0 Hne) as (_ & Hl & _).
  destruct (rooms_never_empty two_tabs tabB 1 "" 0 Hne) as (_ & _ & Hd & _).
  split; [exact Hl|exact Hd].
Defined.

(** ** Relaying edits and cursors *)

(** An edit and a cursor move are relayed to every other socket of the room
    and never back to the socket they came from. The relay consults neither
    the store nor the member sets, and changes neither. *)
Theorem relay_excludes_sender σ socket room c pos :
  sent σ (on_document_change σ socket room c pos)
  = ((λ s, (s, EDocumentUpdate c (userId socket) pos (clock σ)))
       <$> elements (ioRoom σ room ∖ {[sid socket]})) ∧
  sent σ (on_cursor_position σ socket room pos)
  = ((λ s, (s, ECursorUpdate (userId socket) pos))
       <$> elements (ioRoom σ room ∖ {[sid socket]})) ∧
  (∀ e, (sid socket, e) ∉ sent σ (on_document_change σ socket room c pos)) ∧
  (∀ e, (sid socket, e) ∉ sent σ (on_cursor_position σ socket room pos)) ∧
  (∀ s, s ∈ ioRoom σ room → s ≠ sid socket →
        (s, EDocumentUpdate c (userId socket) pos (clock σ))
        ∈ sent σ (on_document_change σ socket room c pos)) ∧
  db (on_document_change σ socket room c pos) = db σ ∧
  documentRooms (on_document_change σ socket room c pos) = documentRooms σ ∧
  db (on_cursor_position σ socket room pos) = db σ ∧
  documentRooms (on_cursor_position σ socket room pos) = documentRooms σ.
Proof.
  destruct (on_document_change_frame σ socket room c pos) as (Hr & _ & Hout).
  destruct (store_on_document_change σ socket room c pos) as (Hdb & _).
  assert (∀ (f : nat → nat * Emit) e,
            (∀ s, (f s).1 = s) →
            (sid socket, e) ∉ f <$> elements (ioRoom σ room ∖ {[sid socket]}))
    as Hnot.
  { intros f e Hfst Hin. apply list_elem_of_fmap in Hin as (s & Hs & Hel).
    apply elem_of_elements, elem_of_difference in Hel as [_ Hel].
    apply Hel, elem_of_singleton. rewrite <- (Hfst s), <- Hs. done. }
  rewrite (sent_deliver _ _ _ Hout).
  rewrite (sent_deliver σ (on_cursor_position σ socket room pos)
             ((λ s, (s, ECursorUpdate (userId socket) pos))
                <$> elements (ioRoom σ room ∖ {[sid socket]}))) by done.
  split_and!; try done.
  - intros e. by apply Hnot.
  - intros e. by apply Hnot.
  - intros s Hs Hne. apply list_elem_of_fmap. exists s. split; [done|].
    apply elem_of_elements, elem_of_difference. split; [done|].
    by rewrite elem_of_singleton.
Qed.

(** ** Disconnecting *)

Lemma clear_user_timers_lookup (l : list (Z * Z * nat)) σ :
  (∀ k, autoSaveTimers (clear_user_timers σ l) !! k
        = if decide (k ∈ l.*1) then None else autoSaveTimers σ !! k) ∧
  (∀ h, timeouts (clear_user_timers σ l) !! h
        = if decide (h ∈ l.*2) then None else timeouts σ !! h).
Proof.
  revert σ. induction l as [|[k0 h0] l IH]; intros σ.
  - split; intros x; rewrite decide_False; try done; apply not_elem_of_nil.
  - destruct (IH (set_autoSaveTimers (clearTimeout σ h0)
                    (delete k0 (autoSaveTimers (clearTimeout σ h0)))))
      as [IHk IHh].
    change (clear_user_timers σ ((k0, h0) :: l))
      with (clear_user_timers
              (set_autoSaveTimers (clearTimeout σ h0)
                 (delete k0 (autoSaveTimers (clearTimeout σ h0)))) l).
    split.
    + intros k. rewrite IHk. simpl.
      destruct (decide (k ∈ l.*1)) as [Hin|Hin].
      * rewrite decide_True; [done|]. by apply elem_of_cons; right.
      * destruct (decide (k0 = k)) as [->|Hne].
        -- rewrite lookup_delete_eq. rewrite decide_True; [done|].
           apply elem_of_cons. by left.
        -- rewrite lookup_delete_ne by done. rewrite decide_False; [done|].
           intros [->|H']%elem_of_cons; done.
    + intros h. rewrite IHh. simpl.
      destruct (decide (h ∈ l.*2)) as [Hin|Hin].
      * rewrite decide_True; [done|]. by apply elem_of_cons; right.
      * destruct (decide (h0 = h)) as [->|Hne].
        -- rewrite lookup_delete_eq. rewrite decide_True; [done|].
           apply elem_of_cons. by left.
        -- rewrite lookup_delete_ne by done. rewrite decide_False; [done|].
           intros [->|H']%elem_of_cons; done.
Qed.

Lemma announce_departure_frame (l : list (Z * gset Z)) σ socket :
  db (announce_departure σ socket l) = db σ ∧
  autoSaveTimers (announce_departure σ socket l) = autoSaveTimers σ ∧
  timeouts (announce_departure σ socket l) = timeouts σ.
Proof.
  revert σ. induction l as [|kv l IH]; intros σ; [done|].
  exact (IH (socket_to_emit σ socket kv.1 (EUserLeft (userId socket) kv.1))).
Qed.

(** The disconnect handler run without another event in between (a timer
    of the user that becomes due while the handler waits can still run and
    save, which is outside this statement): the store is as before, every
    timer registered for the user is forgotten and its timeout disarmed,
    registrations of other users stay, and no timeout is armed that was not
    armed before. *)
Lemma disconnect_drops_pending σ socket :
  db (on_disconnect σ socket) = db σ ∧
  (∀ k, k.2 = userId socket →
        autoSaveTimers (on_disconnect σ socket) !! k = None) ∧
  (∀ k, k.2 ≠ userId socket →
        autoSaveTimers (on_disconnect σ socket) !! k
        = autoSaveTimers σ !! k) ∧
  (∀ k h, autoSaveTimers σ !! k = Some h → k.2 = userId socket →
          timeouts (on_disconnect σ socket) !! h = None) ∧
  (∀ h t, timeouts (on_disconnect σ socket) !! h = Some t →
          timeouts σ !! h = Some t).
Proof.
  set (σ0 := set_ioRooms σ ((λ s, s ∖ {[sid socket]}) <$> ioRooms σ)).
  set (mine := filter (λ kv : Z * Z * nat, kv.1.2 = userId socket)
                 (map_to_list (autoSaveTimers σ0))).
  set (σ1 := clear_user_timers σ0 mine).
  set (left := filter (λ kv : Z * gset Z, userId socket ∈ kv.2)
                 (map_to_list (documentRooms σ1))).
  destruct (clear_user_timers_frame mine σ0) as (_ & _ & _ & Hdb1).
  destruct (clear_user_timers_lookup mine σ0) as [Hk Hh].
  destruct (announce_departure_frame left σ1 socket) as (Hdb2 & Ha2 & Ht2).
  assert (db (on_disconnect σ socket) = db σ) as Hdb.
  { change (db (on_disconnect σ socket))
      with (db (announce_departure σ1 socket left)).
    rewrite Hdb2. exact Hdb1. }
  assert (autoSaveTimers (on_disconnect σ socket) = autoSaveTimers σ1) as Ha
    by exact Ha2.
  assert (timeouts (on_disconnect σ socket) = timeouts σ1) as Ht by exact Ht2.
  assert (∀ k h, (k, h) ∈ mine
                 ↔ autoSaveTimers σ !! k = Some h ∧ k.2 = userId socket)
    as Hmine.
  { intros k h. unfold mine. rewrite list_elem_of_filter, elem_of_map_to_list.
    simpl. tauto. }
  split_and!.
  - exact Hdb.
  - intros k Hu. rewrite Ha. fold σ1. unfold σ1. rewrite Hk.
    destruct (decide (k ∈ mine.*1)) as [Hin|Hin]; [done|].
    destruct (autoSaveTimers σ !! k) as [h|] eqn:Hl; [|done].
    exfalso. apply Hin. apply list_elem_of_fmap. exists (k, h).
    split; [done|]. by apply Hmine.
  - intros k Hu. rewrite Ha. unfold σ1. rewrite Hk.
    rewrite decide_False; [done|].
    intros Hin. apply list_elem_of_fmap in Hin as ([k' h] & -> & Hin).
    apply Hmine in Hin as [_ Hin]. done.
  - intros k h Hl Hu. rewrite Ht. unfold σ1. rewrite Hh.
    rewrite decide_True; [done|].
    apply list_elem_of_fmap. exists (k, h). split; [done|]. by apply Hmine.
  - intros h t. rewrite Ht. unfold σ1. rewrite Hh.
    by destruct (decide (h ∈ mine.*2)).
Qed.

(** ** Explicit save *)

(** An explicit save with new content by a user with access writes through
    [saveDocumentToDB] at once and tells every socket of the room, the
    saver's included, the new version count. The timer registered for the
    pair is forgotten and its timeout disarmed; where every armed timeout
    of the pair was the registered one, no auto-save of the pair is left
    to run. *)
Theorem explicit_save_applied σ socket room doc c :
  findByPk (db σ) room = Some doc → hasAccess doc (userId socket) = true →
  content doc ≠ c →
  db (on_save_document σ socket room c)
  = install (db σ) room doc (userId socket) c ∧
  liveContent (db (on_save_document σ socket room c)) room = Some c ∧
  sent σ (on_save_document σ socket room c)
  = ((λ s, (s, EDocumentSaved room
                 (countVersions (db (on_save_document σ socket room c)) room)))
       <$> elements (ioRoom σ room)) ∧
  autoSaveTimers (on_save_document σ socket room c) !! (room, userId socket)
  = None ∧
  (∀ h, autoSaveTimers σ !! (room, userId socket) = Some h →
        timeouts (on_save_document σ socket room c) !! h = None) ∧
  (registered σ (room, userId socket) →
   ∀ h t, timeouts (on_save_document σ socket room c) !! h = Some t →
          timeout_key t ≠ (room, userId socket)).
Proof.
  intros Hf Ha Hc.
  destruct (on_save_document_frame σ socket room c)
    as (_ & _ & Hdb & Hauto & Htime).
  rewrite (saveDocumentToDB_applied _ _ _ _ _ doc) in Hdb by done.
  simpl in Hdb.
  assert (outbox (on_save_document σ socket room c)
          = outbox σ ++
            ((λ s, (s, EDocumentSaved room
                         (countVersions (install (db σ) room doc
                                           (userId socket) c) room)))
               <$> elements (ioRoom σ room))) as Hout.
  { unfold on_save_document.
    destruct (autoSaveTimers σ !! (room, userId socket)) as [h|]; simpl;
      rewrite (saveDocumentToDB_applied _ _ _ _ _ doc) by done; simpl;
      rewrite findByPk_install; done. }
  split_and!.
  - exact Hdb.
  - rewrite Hdb. unfold liveContent. by rewrite findByPk_install.
  - rewrite Hdb. by apply sent_deliver.
  - rewrite Hauto. apply lookup_delete_eq.
  - intros h Hh. rewrite Htime, Hh. apply lookup_delete_eq.
  - intros Hreg h t Ht Hk. rewrite Htime in Ht.
    destruct (autoSaveTimers σ !! (room, userId socket)) as [h0|] eqn:Hh.
    + destruct (decide (h0 = h)) as [->|Hne].
      * by rewrite lookup_delete_eq in Ht.
      * rewrite lookup_delete_ne in Ht by done.
        specialize (Hreg h t Ht Hk). congruence.
    + specialize (Hreg h t Ht Hk). congruence.
Qed.

Lemma explicit_save_applied_witness :
  liveContent (db (on_save_document two_tabs tabA 1 "z")) 1 = Some "z" ∧
  sent two_tabs (on_save_document two_tabs tabA 1 "z")
  = ((λ s, (s, EDocumentSaved 1
                 (countVersions (db (on_save_document two_tabs tabA 1 "z")) 1)))
       <$> elements (ioRoom two_tabs 1)).
Proof.
  destruct (explicit_save_applied two_tabs tabA 1
              (mkDocument "notes" "a" 0 (Some 7%Z) []) "z")
    as (_ & H2 & H3 & _); [reflexivity|reflexivity|discriminate|].
  split; [exact H2|exact H3].
Defined.

(** ** Auto-save timers *)

Lemma timer_fire_due σ h t :
  timeouts σ !! h = Some t → deadline t ≤ clock σ →
  ∃ σ', timer_fire σ h = Some σ' ∧
        timeouts σ' = delete h (timeouts σ) ∧
        outbox σ' = outbox σ ∧ documentRooms σ' = documentRooms σ ∧
        ∀ doc, findByPk (db σ) (to_document t) = Some doc →
               hasAccess doc (to_user t) = true →
               liveContent (db σ') (to_document t) = Some (to_content t).
Proof.
  intros Ht Hdue.
  destruct (timer_fire σ h) as [σ'|] eqn:Hfire.
  - destruct (timer_fire_frame σ h σ' Hfire)
      as (t' & Ht' & _ & Hr & _ & Hout & _ & Htime & _ & Hdb).
    assert (t' = t) as -> by congruence.
    exists σ'. split_and!; try done.
    intros doc Hf Ha. rewrite Hdb. unfold liveContent.
    destruct (decide (content doc = to_content t)) as [E|E].
    + rewrite <- E, (saveDocumentToDB_unchanged _ _ _ _ doc) by done.
      simpl. by rewrite Hf.
    + rewrite (saveDocumentToDB_applied _ _ _ _ _ doc) by done.
      simpl. by rewrite findByPk_install.
  - exfalso. unfold timer_fire in Hfire. rewrite Ht in Hfire.
    rewrite bool_decide_eq_true_2 in Hfire by done. simpl in Hfire.
    by destruct (saveDocumentToDB _ _ _ _ _) as [? [| |]].
Qed.

(** A timeout runs only once it is due and only once. When it runs for a
    user with access, the content it was armed with becomes the live
    content; nobody is told: no message is sent and the member sets are as
    before. *)
Theorem auto_save_runs_once σ h t :
  timeouts σ !! h = Some t →
  (clock σ < deadline t → timer_fire σ h = None) ∧
  (deadline t ≤ clock σ →
   ∃ σ', timer_fire σ h = Some σ' ∧
         timer_fire σ' h = None ∧
         timeouts σ' = delete h (timeouts σ) ∧
         outbox σ' = outbox σ ∧ documentRooms σ' = documentRooms σ ∧
         ∀ doc, findByPk (db σ) (to_document t) = Some doc →
                hasAccess doc (to_user t) = true →
                liveContent (db σ') (to_document t) = Some (to_content t)).
Proof.
  intros Ht. split.
  - intros Hlt. unfold timer_fire. rewrite Ht.
    rewrite bool_decide_eq_false_2; [done|lia].
  - intros Hdue.
    destruct (timer_fire_due σ h t Ht Hdue)
      as (σ' & Hfire & Htime & Hout & Hr & Hlive).
    exists σ'. split_and!; try done.
    unfold timer_fire. by rewrite Htime, lookup_delete_eq.
Qed.

Lemma auto_save_runs_once_witness :
  ∃ σ', timer_fire (advance (on_document_change two_tabs tabA 1 "A" 0) 2000) 0
        = Some σ' ∧
        timer_fire σ' 0 = None ∧
        liveContent (db σ') 1 = Some "A".
Proof.
  destruct (auto_save_runs_once
              (advance (on_document_change two_tabs tabA 1 "A" 0) 2000) 0
              (mkTimeout 2000 1 "A" 7)) as [_ Hdue]; [reflexivity|].
  destruct Hdue as (σ' & H1 & H2 & _ & _ & _ & H6); [vm_compute; lia|].
  exists σ'. split; [exact H1|]. split; [exact H2|].
  apply (H6 (mkDocument "notes" "a" 0 (Some 7%Z) [])); reflexivity.
Defined.

(** Debouncing where no earlier callback interferes: from a state in which
    every armed timeout of the pair is the registered one, a burst of edits
    of one connection to one document writes nothing and leaves exactly one
    pending save, armed with the content of the last edit. When that
    timeout has become due and runs, this content is the live content and
    no save of the pair is pending any more. *)
Theorem debounce_coalesces socket room (l : list Action) σ c doc :
  registered σ (room, userId socket) → handles_fresh σ →
  Forall (in_burst socket room) l → lastEdit None l = Some c →
  findByPk (db σ) room = Some doc → hasAccess doc (userId socket) = true →
  ∃ σ1 h t,
    run σ l = Some σ1 ∧ db σ1 = db σ ∧ console σ1 = console σ ∧
    timeouts σ1 !! h = Some t ∧ to_content t = c ∧
    timeout_key t = (room, userId socket) ∧
    (∀ h' t', timeouts σ1 !! h' = Some t' →
              timeout_key t' = (room, userId socket) → h' = h) ∧
    ∀ dt, deadline t ≤ clock σ1 + dt →
      ∃ σ2, run σ1 [ATick dt; AFire h] = Some σ2 ∧
            liveContent (db σ2) room = Some c ∧
            ∀ h' t', timeouts σ2 !! h' = Some t' →
                     timeout_key t' ≠ (room, userId socket).
Proof.
  intros Hreg Hfresh Hl Hlast Hf Ha.
  destruct (burst_coalesces socket room l σ None Hreg Hfresh Hl)
    as (σ1 & Hrun & Hdb & Hco & _ & _ & Hone); [done|].
  destruct (Hone c Hlast) as (h & t & Ht & Hk & Hc & Huniq).
  exists σ1, h, t. split_and!; try done.
  intros dt Hdue. injection Hk as Hk1 Hk2.
  destruct (timer_fire_due (advance σ1 dt) h t Ht) as
    (σ2 & Hfire & Htime & _ & _ & Hlive); [exact Hdue|].
  exists σ2. split_and!.
  - simpl. by rewrite Hfire.
  - rewrite <- Hk1, <- Hc. apply (Hlive doc).
    + change (db (advance σ1 dt)) with (db σ1). by rewrite Hdb, Hk1.
    + by rewrite Hk2.
  - intros h' t' Ht' Hk'. rewrite Htime in Ht'.
    change (timeouts (advance σ1 dt)) with (timeouts σ1) in Ht'.
    destruct (decide (h = h')) as [<-|Hne].
    + by rewrite lookup_delete_eq in Ht'.
    + rewrite lookup_delete_ne in Ht' by done.
      apply Hne. symmetry. by apply (Huniq h' t').
Qed.

Lemma debounce_coalesces_witness :
  ∃ σ1 h t,
    run two_tabs
      [AChange tabA 1 "x" 0; ATick 500; AChange tabA 1 "y" 3] = Some σ1 ∧
    db σ1 = db two_tabs ∧ console σ1 = console two_tabs ∧
    timeouts σ1 !! h = Some t ∧ to_content t = "y" ∧
    timeout_key t = (1%Z, userId tabA) ∧
    (∀ h' t', timeouts σ1 !! h' = Some t' →
              timeout_key t' = (1%Z, userId tabA) → h' = h) ∧
    ∀ dt, deadline t ≤ clock σ1 + dt →
      ∃ σ2, run σ1 [ATick dt; AFire h] = Some σ2 ∧
            liveContent (db σ2) 1 = Some "y" ∧
            ∀ h' t', timeouts σ2 !! h' = Some t' →
                     timeout_key t' ≠ (1%Z, userId tabA).
Proof.
  apply (debounce_coalesces tabA 1
           [AChange tabA 1 "x" 0; ATick 500; AChange tabA 1 "y" 3]
           two_tabs "y" (mkDocument "notes" "a" 0 (Some 7%Z) [])).
  - intros h t Ht. assert (timeouts two_tabs = ∅) as E by reflexivity.
    rewrite E in Ht. by rewrite lookup_empty in Ht.
  - intros h [t Ht]. assert (timeouts two_tabs = ∅) as E by reflexivity.
    rewrite E in Ht. by rewrite lookup_empty in Ht.
  - repeat constructor.
  - reflexivity.
  - reflexivity.
  - reflexivity.
Defined.


(** * Properties of the account routes *)

Section AuthProperties.
Variable storedPassword : string → string.
Variable comparePassword : User → string → bool.
Variable sign : Z → nat → string.

Lemma head_filter_None {A} (P : A → Prop) `{∀ x, Decision (P x)} (l : list A) :
  head (filter P l) = None → ∀ x, x ∈ l → ¬ P x.
Proof.
  intros Hh x Hin HP. apply head_None in Hh.
  assert (x ∈ filter P l) as Hx by (apply list_elem_of_filter; done).
  rewrite Hh in Hx. by apply elem_of_nil in Hx.
Qed.

Lemma missing_false (o : option string) :
  missing o = false → ∃ s, o = Some s ∧ default "" o = s ∧ s ≠ "".
Proof. destruct o as [[|a s]|]; try done. intros _. by eexists. Qed.

Lemma registerRoute_created now us n e p :
  (∃ m, registerRoute storedPassword sign now us n e p
        = (us, AuthJson 400 (ABMessage m))) ∨
  ∃ sn se sp,
    n = Some sn ∧ e = Some se ∧ p = Some sp ∧
    (∀ r, r ∈ rows us → email r.2 ≠ se ∧ username r.2 ≠ sn) ∧
    registerRoute storedPassword sign now us n e p
    = (mkUsers (rows us ++ [(nextUserId us, mkUser sn se (storedPassword sp))])
         (nextUserId us + 1)%Z,
       AuthJson 201 (ABToken (sign (nextUserId us) now) (nextUserId us) sn se)).
Proof.
  unfold registerRoute.
  destruct (missing n) eqn:Hn; [left; by eexists|].
  destruct (missing e) eqn:He; [left; by eexists|].
  destruct (missing p) eqn:Hp; [left; by eexists|]. simpl.
  destruct (missing_false n Hn) as (sn & -> & Hsn & _).
  destruct (missing_false e He) as (se & -> & Hse & _).
  destruct (missing_false p Hp) as (sp & -> & Hsp & _).
  simpl in *.
  destruct (findByEmailOrName us se sn) as [r|] eqn:Hfind;
    [left; by eexists|].
  right. exists sn, se, sp. split_and!; try done.
  intros r Hin. unfold findByEmailOrName in Hfind.
  pose proof (head_filter_None _ _ Hfind r Hin) as Hnot. simpl in Hnot.
  split; intros E; apply Hnot; [by left|by right].
Qed.

(** Registration keeps accounts apart: if emails, user names and ids are
    pairwise distinct they still are after a registration, whatever it
    answers. Existing rows stay as they are, and a registration that is
    refused changes nothing. *)
Theorem register_keeps_distinct now us n e p :
  usersDistinct us →
  usersDistinct (registerRoute storedPassword sign now us n e p).1 ∧
  rows us `prefix_of` rows (registerRoute storedPassword sign now us n e p).1 ∧
  ∀ b, (registerRoute storedPassword sign now us n e p).2 = AuthJson 400 b →
       (registerRoute storedPassword sign now us n e p).1 = us.
Proof.
  intros (He & Hn & Hi & Hlt).
  destruct (registerRoute_created now us n e p)
    as [[m E] | (sn & se & sp & -> & -> & -> & Hfree & E)]; rewrite E.
  - split_and!; [done|done|done].
  - simpl. split_and!.
    + split_and!; simpl.
      * rewrite fmap_app. simpl. apply list.NoDup_app.
        split_and!; [done| |apply NoDup_singleton].
        intros x Hx Hx'. apply list_elem_of_singleton in Hx'. simpl in Hx'.
        apply list_elem_of_fmap in Hx as (r & -> & Hr).
        by destruct (Hfree r Hr).
      * rewrite fmap_app. simpl. apply list.NoDup_app.
        split_and!; [done| |apply NoDup_singleton].
        intros x Hx Hx'. apply list_elem_of_singleton in Hx'. simpl in Hx'.
        apply list_elem_of_fmap in Hx as (r & -> & Hr).
        by destruct (Hfree r Hr).
      * rewrite fmap_app. simpl. apply list.NoDup_app.
        split_and!; [done| |apply NoDup_singleton].
        intros x Hx Hx'. apply list_elem_of_singleton in Hx'. simpl in Hx'.
        apply list_elem_of_fmap in Hx as (r & -> & Hr).
        apply Hlt in Hr. lia.
      * intros r Hr. apply elem_of_app in Hr as [Hr|Hr].
        -- apply Hlt in Hr. lia.
        -- apply list_elem_of_singleton in Hr as ->. simpl. lia.
    + by apply prefix_app_r.
    + intros b Hb. discriminate Hb.
Qed.

(** A registration that succeeded can log in: with a password test that
    accepts the password a row was stored with, a later login with the
    registered email and password answers 200 for the id, name and email
    the registration answered, with a token signed for that id at the time
    of the login; that id's profile is the new account. *)
Theorem register_then_login now later us n e p b :
  (∀ un em pw, comparePassword (mkUser un em (storedPassword pw)) pw = true) →
  usersDistinct us →
  (registerRoute storedPassword sign now us n e p).2 = AuthJson 201 b →
  ∃ sn se,
    n = Some sn ∧ e = Some se ∧
    b = ABToken (sign (nextUserId us) now) (nextUserId us) sn se ∧
    loginRoute comparePassword sign later
      (registerRoute storedPassword sign now us n e p).1 e p
    = AuthJson 200 (ABToken (sign (nextUserId us) later) (nextUserId us) sn se) ∧
    meRoute (registerRoute storedPassword sign now us n e p).1 (nextUserId us)
    = AuthJson 200 (ABUser (nextUserId us) sn se).
Proof.
  intros Hcmp (_ & _ & _ & Hlt) Hres.
  destruct (registerRoute_created now us n e p)
    as [[m E] | (sn & se & sp & -> & -> & -> & Hfree & E)].
  - rewrite E in Hres. discriminate Hres.
  - rewrite E in *. simpl in Hres. injection Hres as <-.
    exists sn, se. split_and!; try done.
    + unfold loginRoute.
      assert (missing (Some se) = false ∧ missing (Some sp) = false) as [-> ->].
      { revert E. unfold registerRoute.
        destruct (missing (Some sn)); [done|].
        destruct (missing (Some se)); [done|].
        by destruct (missing (Some sp)). }
      simpl. unfold findByEmail. simpl. rewrite list.filter_app.
      assert (filter (λ r : Z * User, email r.2 = se) (rows us) = []) as ->.
      { destruct (filter _ (rows us)) as [|r l] eqn:Hfil; [done|].
        assert (r ∈ filter (λ r : Z * User, email r.2 = se) (rows us)) as Hin
          by (rewrite Hfil; left).
        apply list_elem_of_filter in Hin as [Hin1 Hin2].
        by destruct (Hfree r Hin2). }
      simpl. rewrite filter_cons_True by done. simpl. by rewrite Hcmp.
    + unfold meRoute. simpl. rewrite list.filter_app.
      assert (filter (λ r : Z * User, r.1 = nextUserId us) (rows us) = [])
        as ->.
      { destruct (filter _ (rows us)) as [|r l] eqn:Hfil; [done|].
        assert (r ∈ filter (λ r : Z * User, r.1 = nextUserId us) (rows us))
          as Hin by (rewrite Hfil; left).
        apply list_elem_of_filter in Hin as [Hin1 Hin2].
        apply Hlt in Hin2. lia. }
      simpl. by rewrite filter_cons_True by done.
Qed.

(** A token is only issued to an account that exists and whose password
    test passed, and it is the token signed for that account's id at the
    time of the call. An unknown email and a wrong password get the same
    answer. *)
Theorem login_sound now us e p :
  (∀ b, loginRoute comparePassword sign now us e p = AuthJson 200 b →
        ∃ id user se sp,
          e = Some se ∧ p = Some sp ∧ (id, user) ∈ rows us ∧
          email user = se ∧ comparePassword user sp = true ∧
          b = ABToken (sign id now) id (username user) se) ∧
  (missing e = false → missing p = false →
   (∀ id user, (id, user) ∈ rows us → email user = default "" e →
               comparePassword user (default "" p) = false) →
   loginRoute comparePassword sign now us e p
   = AuthJson 400 (ABMessage "Invalid credentials")).
Proof.
  split.
  - intros b. unfold loginRoute.
    destruct (missing e) eqn:He; [done|].
    destruct (missing p) eqn:Hp; [done|]. simpl.
    destruct (missing_false e He) as (se & -> & _).
    destruct (missing_false p Hp) as (sp & -> & _). simpl.
    destruct (findByEmail us se) as [[id user]|] eqn:Hfind; [|done].
    destruct (comparePassword user sp) eqn:Hc; [|done].
    intros [= <-]. unfold findByEmail in Hfind.
    apply head_Some_elem_of in Hfind.
    apply list_elem_of_filter in Hfind as [Hmail Hin]. simpl in Hmail.
    exists id, user, se, sp. rewrite Hmail. done.
  - intros He Hp Hwrong. unfold loginRoute. rewrite He, Hp. simpl.
    destruct (findByEmail us (default "" e)) as [[id user]|] eqn:Hfind;
      [|done].
    unfold findByEmail in Hfind. apply head_Some_elem_of in Hfind.
    apply list_elem_of_filter in Hfind as [Hmail Hin]. simpl in Hmail.
    by rewrite (Hwrong id user Hin Hmail).
Qed.
End AuthProperties.

Lemma one_user_distinct :
  usersDistinct (mkUsers [(1%Z, mkUser "ann" "ann@x.org" "pw")] 2).
Proof.
  split_and!; simpl; try apply NoDup_singleton.
  intros r Hr. apply list_elem_of_singleton in Hr as ->. simpl. lia.
Qed.

Lemma register_keeps_distinct_witness :
  let us := mkUsers [(1%Z, mkUser "ann" "ann@x.org" "pw")] 2 in
  let stamp := λ (id : Z) (t : nat),
    String (Ascii.ascii_of_nat (65 + t)) EmptyString in
  (usersDistinct
     (registerRoute (λ p, p) stamp 5 us
        (Some "bob") (Some "bob@x.org") (Some "pw2")).1 ∧
   rows us `prefix_of`
     rows (registerRoute (λ p, p) stamp 5 us
             (Some "bob") (Some "bob@x.org") (Some "pw2")).1 ∧
   length (rows (registerRoute (λ p, p) stamp 5 us
                   (Some "bob") (Some "bob@x.org") (Some "pw2")).1) = 2) ∧
  (registerRoute (λ p, p) stamp 6 us
     (Some "eve") (Some "ann@x.org") (Some "pw3")).2
  = AuthJson 400 (ABMessage "User already exists") ∧
  (registerRoute (λ p, p) stamp 6 us
     (Some "eve") (Some "ann@x.org") (Some "pw3")).1 = us.
Proof.
  intros us stamp.
  destruct (register_keeps_distinct (λ p, p) stamp 5 us
              (Some "bob") (Some "bob@x.org") (Some "pw2")
              one_user_distinct) as (H1 & H2 & _).
  destruct (register_keeps_distinct (λ p, p) stamp 6 us
              (Some "eve") (Some "ann@x.org") (Some "pw3")
              one_user_distinct) as (_ & _ & H3).
  split; [split; [exact H1|split; [exact H2|reflexivity]]|].
  split; [reflexivity|].
  apply (H3 (ABMessage "User already exists")). reflexivity.
Defined.

Lemma register_then_login_witness :
  let us := mkUsers [(1%Z, mkUser "ann" "ann@x.org" "pw")] 2 in
  let stamp := λ (id : Z) (t : nat),
    String (Ascii.ascii_of_nat (65 + t)) EmptyString in
  let check := λ (user : User) (pw : string), bool_decide (password user = pw)
  in
  ∃ sn se,
    Some "bob" = Some sn ∧ Some "bob@x.org" = Some se ∧
    ABToken (stamp 2%Z 5) 2 "bob" "bob@x.org"
    = ABToken (stamp (nextUserId us) 5) (nextUserId us) sn se ∧
    loginRoute check stamp 9
      (registerRoute (λ p, p) stamp 5 us
         (Some "bob") (Some "bob@x.org") (Some "pw2")).1
      (Some "bob@x.org") (Some "pw2")
    = AuthJson 200 (ABToken (stamp (nextUserId us) 9) (nextUserId us) sn se) ∧
    meRoute
      (registerRoute (λ p, p) stamp 5 us
         (Some "bob") (Some "bob@x.org") (Some "pw2")).1 (nextUserId us)
    = AuthJson 200 (ABUser (nextUserId us) sn se).
Proof.
  intros us stamp check.
  apply (register_then_login (λ p, p) check stamp 5 9 us
           (Some "bob") (Some "bob@x.org") (Some "pw2")
           (ABToken (stamp 2%Z 5) 2 "bob" "bob@x.org")).
  - intros un em pw. unfold check. simpl. by apply bool_decide_eq_true.
  - apply one_user_distinct.
  - reflexivity.
Defined.

Lemma login_sound_witness :
  loginRoute (λ user pw, bool_decide (password user = pw)) (λ _ _, "token") 3
    (mkUsers [(1%Z, mkUser "ann" "ann@x.org" "pw")] 2)
    (Some "ann@x.org") (Some "guess")
  = AuthJson 400 (ABMessage "Invalid credentials").
Proof.
  destruct (login_sound (λ user pw, bool_decide (password user = pw))
              (λ _ _, "token") 3
              (mkUsers [(1%Z, mkUser "ann" "ann@x.org" "pw")] 2)
              (Some "ann@x.org") (Some "guess")) as [_ H].
  apply H; [reflexivity|reflexivity|].
  intros id user Hin _. simpl in Hin.
  apply list_elem_of_singleton in Hin. injection Hin as -> ->.
  reflexivity.
Defined.

(** * Properties of the connection settings *)

Lemma stripTrailing_snoc (s : string) (q : Ascii.ascii) :
  isQuote q = true →
  stripTrailing (String.append s (String q EmptyString)) = s.
Proof.
  intros Hq. induction s as [|a s IH]; simpl.
  - by rewrite Hq.
  - rewrite IH. by destruct s.
Qed.

Lemma stripTrailing_plain (s : string) :
  (∀ a, lastChar s = Some a → isQuote a = false) → stripTrailing s = s.
Proof.
  induction s as [|a s IH]; [done|]. intros Hlast.
  destruct s as [|b s].
  - simpl. by rewrite (Hlast a).
  - change (String a (stripTrailing (String b s)) = String a (String b s)).
    f_equal. apply IH. intros c Hc. by apply Hlast.
Qed.

(** Removing the quotes a value was written in: one quote at the start and
    one at the end are taken off and the text between them is kept as it
    is, whatever it contains. A value that neither starts nor ends with a
    quote is returned unchanged, and at most two characters are ever
    removed. *)
Theorem stripQuotes_spec (s : string) :
  (∀ q1 q2, isQuote q1 = true → isQuote q2 = true →
            stripQuotes (String q1 (String.append s (String q2 EmptyString)))
            = s) ∧
  ((∀ a s', s = String a s' → isQuote a = false) →
   (∀ a, lastChar s = Some a → isQuote a = false) →
   stripQuotes s = s) ∧
  String.length s ≤ String.length (stripQuotes s) + 2.
Proof.
  split_and!.
  - intros q1 q2 H1 H2. unfold stripQuotes. simpl. rewrite H1.
    by apply stripTrailing_snoc.
  - intros Hfirst Hlast. unfold stripQuotes.
    assert (stripLeading s = s) as ->.
    { destruct s as [|a s']; [done|]. simpl. by rewrite (Hfirst a s'). }
    by apply stripTrailing_plain.
  - unfold stripQuotes.
    assert (∀ t, String.length t ≤ String.length (stripTrailing t) + 1) as Ht.
    { induction t as [|a t IH]; [simpl; lia|].
      destruct t as [|b t]; [simpl; destruct (isQuote a); simpl; lia|].
      change (stripTrailing (String a (String b t)))
        with (String a (stripTrailing (String b t))).
      simpl in *. lia. }
    assert (String.length s ≤ String.length (stripLeading s) + 1) as Hl.
    { destruct s as [|a s']; [simpl; lia|].
      simpl. destruct (isQuote a); simpl; lia. }
    specialize (Ht (stripLeading s)). lia.
Qed.

Lemma stripQuotes_spec_witness :
  stripQuotes "'db.example.org'" = "db.example.org" ∧
  stripQuotes "postgres" = "postgres".
Proof.
  split.
  - apply (proj1 (stripQuotes_spec "db.example.org")
             (Ascii.ascii_of_nat 39) (Ascii.ascii_of_nat 39));
      reflexivity.
  - apply (proj1 (proj2 (stripQuotes_spec "postgres"))).
    + intros a s' [= <- <-]. reflexivity.
    + intros a [= <-]. reflexivity.
Defined.
